(** * rpnpy: tokenizer, shunting-yard reorderer and RPN stack evaluator

    A shallow embedding of [expression.py] and [rpn.py].

    Conventions of the embedding:
    - a Python exception is a value of [exn]; a computation that may raise
      returns a [result];
    - a character is a code point below 256 ([ascii]), a Python [str] is a
      [string];
    - Python floats are the binary64 primitive floats; Python ints are [Z];
    - a Python list that is only appended to ([tokens], [output], the two
      tokenizer buffers) is a list in the same order, [append] being
      [l ++ [x]];
    - a Python list used as a stack (the operator stack of [shunting_yard],
      the value stack of [RPNCalculator.eval]) is a list whose HEAD is the
      top of the stack, i.e. Python's [stack[-1]]; [of_py_list] gives the
      stack whose Python list is the argument. *)

From Stdlib Require Import ZArith List String Ascii Bool Lia.
From Stdlib Require Import Floats.
From Stdlib Require Import Permutation.
Import ListNotations.
Local Open Scope string_scope.
Local Open Scope list_scope.
Local Open Scope Z_scope.

(** ** Exceptions *)

Inductive exn : Type :=
| SyntaxError (msg : string)
| Warning (msg : string)
| IndexError
| KeyError
| ValueError
| ZeroDivisionError
| OverflowError
| TypeError.

Inductive result (A : Type) : Type :=
| Ok (a : A)
| Raise (e : exn).
Arguments Ok {A} a.
Arguments Raise {A} e.

Definition rbind {A B : Type} (r : result A) (k : A -> result B) : result B :=
  match r with
  | Ok a => k a
  | Raise e => Raise e
  end.

Declare Scope result_scope.
Delimit Scope result_scope with result.
Notation "x <- r ;; k" := (rbind r (fun x => k))
  (at level 61, r at next level, right associativity) : result_scope.

(** ** Characters and strings *)

Definition code (c : ascii) : Z := Z.of_N (N_of_ascii c).

Definition between (lo hi : Z) (c : ascii) : bool :=
  (lo <=? code c) && (code c <=? hi).

Definition is_ascii_digit (c : ascii) : bool := between 48 57 c.

(** [str.isdigit]: the decimal digits, and the superscripts U+00B2, U+00B3
    and U+00B9. *)
Definition isdigit (c : ascii) : bool :=
  is_ascii_digit c || between 178 179 c || between 185 185 c.

(** [str.isalpha]: the letters of the first 256 code points. *)
Definition isalpha (c : ascii) : bool :=
  between 65 90 c || between 97 122 c
  || between 170 170 c || between 181 181 c || between 186 186 c
  || between 192 214 c || between 216 246 c || between 248 255 c.

(** [str.isspace]. *)
Definition isspace (c : ascii) : bool :=
  between 9 13 c || between 28 32 c || between 133 133 c || between 160 160 c.

Definition char_in (c : ascii) (s : string) : bool :=
  existsb (Ascii.eqb c) (list_ascii_of_string s).

(** [''.join(buffer)] *)
Definition join (buffer : list ascii) : string := string_of_list_ascii buffer.

Definition dquote : string := String (ascii_of_nat 34) EmptyString.

(** ** [float(text)] on the text of a number buffer

    The buffer only ever holds characters accepted by [isdigit] and the two
    characters [-] and [.]; on such a text [float] accepts an optional sign,
    then digits with an optional point, and rounds the decimal to the nearest
    binary64 value (ties to even). *)

Fixpoint span_digits (s : list ascii) : list ascii * list ascii :=
  match s with
  | c :: r =>
      if is_ascii_digit c
      then let (ds, rest) := span_digits r in (c :: ds, rest)
      else ([], s)
  | [] => ([], [])
  end.

Definition digits_value (ds : list ascii) : Z :=
  fold_left (fun acc c => 10 * acc + (code c - 48)) ds 0.

(** The nearest binary64 value to [(-1)^neg * n / d], for [n >= 0], [d > 0]. *)
Definition float_of_ratio (neg : bool) (n d : Z) : float :=
  if n =? 0 then SF2Prim (S754_zero neg)
  else
    let s := Z.max 0 (56 + Z.log2 d - Z.log2 n) in
    let q := Z.shiftl n s / d in
    let r := Z.shiftl n s mod d in
    let l := if r =? 0 then loc_Exact else loc_Inexact (2 * r ?= d) in
    SF2Prim (binary_round_aux FloatOps.prec emax neg q (- s) l).

Definition parse_decimal (s : list ascii) : option (bool * Z * Z) :=
  let (neg, s1) := match s with
                   | "-"%char :: r => (true, r)
                   | _ => (false, s)
                   end in
  let (ip, s2) := span_digits s1 in
  match s2 with
  | [] =>
      match ip with
      | [] => None
      | _ => Some (neg, digits_value ip, 1)
      end
  | "."%char :: s3 =>
      let (fp, s4) := span_digits s3 in
      match s4, ip ++ fp with
      | [], _ :: _ => Some (neg, digits_value (ip ++ fp), 10 ^ Z.of_nat (List.length fp))
      | _, _ => None
      end
  | _ => None
  end.

Definition py_float (text : string) : result float :=
  match parse_decimal (list_ascii_of_string text) with
  | Some (neg, n, d) => Ok (float_of_ratio neg n d)
  | None => Raise ValueError
  end.

(** ** Tokens *)

(** [Token = namedtuple("Token", "type value")]: the [type] is the
    constructor, the [value] its argument. *)
Inductive Token : Type :=
| Literal (value : float)
| Constant (value : string)
| Function (value : string)
| Operator (value : string)
| LParen (value : string)
| RParen (value : string)
| Separator (value : string).

(** [Operator = namedtuple("Operator", "prec assoc")] *)
Inductive Assoc : Type := L | R.

Record OperatorInfo : Type := { prec : Z; assoc : Assoc }.

Definition OPS : list (string * OperatorInfo) :=
  [ ("+", {| prec := 2; assoc := L |});
    ("-", {| prec := 2; assoc := L |});
    ("/", {| prec := 3; assoc := L |});
    ("*", {| prec := 3; assoc := L |});
    ("^", {| prec := 4; assoc := R |}) ].

Fixpoint lookup {A : Type} (key : string) (d : list (string * A)) : option A :=
  match d with
  | [] => None
  | (k, v) :: rest => if String.eqb key k then Some v else lookup key rest
  end.

(** [key in OPS] *)
Definition in_OPS (key : string) : bool :=
  match lookup key OPS with Some _ => true | None => false end.

(** ** [tokenize] *)

Record tokenizer : Type := {
  tokens : list Token;
  letter_buffer : list ascii;
  number_buffer : list ascii
}.

Definition flush_letters (t : tokenizer) : tokenizer :=
  match letter_buffer t with
  | [] => t
  | _ =>
      let token := join (letter_buffer t) in
      {| tokens :=
           if String.eqb token "e" || String.eqb token "pi"
           then tokens t ++ [Constant token]
           else tokens t ++ [Function token];
         letter_buffer := [];
         number_buffer := number_buffer t |}
  end.

Definition flush_numbers (t : tokenizer) : result tokenizer :=
  match number_buffer t with
  | [] => Ok t
  | _ =>
      let tokens1 :=
        if list_eq_dec ascii_dec (number_buffer t) ["-"%char]
        then tokens t ++ [Operator "-"]
        else tokens t in
      (x <- py_float (join (number_buffer t)) ;;
       Ok {| tokens := tokens1 ++ [Literal x];
             letter_buffer := letter_buffer t;
             number_buffer := [] |})%result
  end.

Definition empty_buffers (t : tokenizer) : result tokenizer :=
  flush_numbers (flush_letters t).

Definition emit (tok : Token) (t : tokenizer) : tokenizer :=
  {| tokens := tokens t ++ [tok];
     letter_buffer := letter_buffer t;
     number_buffer := number_buffer t |}.

Definition one (char : ascii) : string := String char EmptyString.

(** The body of [for char in expr]. *)
Definition tokenize_char (char : ascii) (t : tokenizer) : result tokenizer :=
  (if isdigit char || char_in char "-."
   then Ok {| tokens := tokens t;
              letter_buffer := letter_buffer t;
              number_buffer := number_buffer t ++ [char] |}
   else if isalpha char
   then
     t1 <- match number_buffer t with
           | [] => Ok t
           | _ => empty_buffers t
           end ;;
     Ok {| tokens := tokens t1;
           letter_buffer := letter_buffer t1 ++ [char];
           number_buffer := number_buffer t1 |}
   else if in_OPS (one char)
   then t1 <- empty_buffers t ;; Ok (emit (Operator (one char)) t1)
   else if char_in char "(["
   then t1 <- empty_buffers t ;; Ok (emit (LParen (one char)) t1)
   else if char_in char ")]"
   then t1 <- empty_buffers t ;; Ok (emit (RParen (one char)) t1)
   else if Ascii.eqb char ","
   then t1 <- empty_buffers t ;; Ok (emit (Separator (one char)) t1)
   else if isspace char
   then empty_buffers t
   else Raise (SyntaxError ("unexpected " ++ dquote ++ one char ++ dquote)%string))%result.

Fixpoint tokenize_loop (expr : list ascii) (t : tokenizer) : result tokenizer :=
  match expr with
  | [] => Ok t
  | char :: rest =>
      (t1 <- tokenize_char char t ;; tokenize_loop rest t1)%result
  end.

Definition tokenize (expr : string) : result (list Token) :=
  (t <- tokenize_loop (list_ascii_of_string expr)
          {| tokens := []; letter_buffer := []; number_buffer := [] |} ;;
   t1 <- empty_buffers t ;;
   Ok (tokens t1))%result.

(** ** [shunting_yard] *)

Definition is_Operator (t : Token) : bool :=
  match t with Operator _ => true | _ => false end.
Definition is_LParen (t : Token) : bool :=
  match t with LParen _ => true | _ => false end.
Definition is_RParen (t : Token) : bool :=
  match t with RParen _ => true | _ => false end.
Definition is_Function (t : Token) : bool :=
  match t with Function _ => true | _ => false end.

(** [OPS[token.value]]: a [KeyError] when the value is not a key of [OPS]
    (the float of a [Literal] never is). *)
Definition OPS_of (t : Token) : result OperatorInfo :=
  match t with
  | Literal _ => Raise KeyError
  | Constant v | Function v | Operator v | LParen v | RParen v | Separator v =>
      match lookup v OPS with
      | Some o => Ok o
      | None => Raise KeyError
      end
  end.

(** [stack[-1]] *)
Definition top {A : Type} (stack : list A) : result A :=
  match stack with
  | x :: _ => Ok x
  | [] => Raise IndexError
  end.

(** The condition of the [while] of the [Operator] branch, as Python parses
    it: [and] binds tighter than [or], so the condition is
    [(stack and stack[-1].type == 'Operator' and (<left>)) or (<right>)]
    and the second disjunct is evaluated whenever the first is false, also
    on an empty stack. *)
Definition operator_condition (token : Token) (stack : list Token) : result bool :=
  (first <-
     match stack with
     | [] => Ok false
     | t :: _ =>
         if is_Operator t
         then
           o <- OPS_of token ;;
           match assoc o with
           | L => t1 <- top stack ;; o1 <- OPS_of t1 ;; Ok (prec o <=? prec o1)
           | R => Ok false
           end
         else Ok false
     end ;;
   if first : bool then Ok true
   else
     o <- OPS_of token ;;
     match assoc o with
     | R => t1 <- top stack ;; o1 <- OPS_of t1 ;; Ok (prec o <? prec o1)
     | L => Ok false
     end)%result.

(** [while <condition>: output.append(stack.pop())] of the [Operator] branch. *)
Fixpoint pop_operators (token : Token) (stack output : list Token)
  : result (list Token * list Token) :=
  (c <- operator_condition token stack ;;
   if c : bool
   then match stack with
        | t :: rest => pop_operators token rest (output ++ [t])
        | [] => Raise IndexError
        end
   else Ok (stack, output))%result.

(** [while stack and stack[-1].type != 'LParen': output.append(stack.pop())] *)
Fixpoint pop_until_LParen (stack output : list Token) : list Token * list Token :=
  match stack with
  | t :: rest =>
      if is_LParen t then (stack, output)
      else pop_until_LParen rest (output ++ [t])
  | [] => ([], output)
  end.

Definition mismatched : exn := SyntaxError "mismatched parentheses".

(** The body of [for token in expr], on the pair [(stack, output)]. *)
Definition shunt (token : Token) (st : list Token * list Token)
  : result (list Token * list Token) :=
  let (stack, output) := st in
  match token with
  | Literal _ | Constant _ => Ok (stack, output ++ [token])
  | Function _ => Ok (token :: stack, output)
  | Separator _ =>
      let (stack1, output1) := pop_until_LParen stack output in
      match stack1 with
      | [] => Raise mismatched
      | _ => Ok (stack1, output1)
      end
  | Operator _ =>
      (r <- pop_operators token stack output ;;
       let (stack1, output1) := r : list Token * list Token in
       Ok (token :: stack1, output1))%result
  | LParen _ => Ok (token :: stack, output)
  | RParen _ =>
      let (stack1, output1) := pop_until_LParen stack output in
      (t <- top stack1 ;;
       if is_LParen t
       then
         let stack2 := tl stack1 in
         match stack2 with
         | f :: stack3 =>
             if is_Function f then Ok (stack3, output1 ++ [f])
             else Ok (stack2, output1)
         | [] => Ok (stack2, output1)
         end
       else Raise mismatched)%result
  end.

Fixpoint shunt_all (expr : list Token) (st : list Token * list Token)
  : result (list Token * list Token) :=
  match expr with
  | [] => Ok st
  | token :: rest => (st1 <- shunt token st ;; shunt_all rest st1)%result
  end.

(** [while stack: ...] after the loop over the tokens. *)
Fixpoint pop_remaining (stack output : list Token) : result (list Token) :=
  match stack with
  | [] => Ok output
  | t :: rest =>
      if is_LParen t || is_RParen t then Raise mismatched
      else pop_remaining rest (output ++ [t])
  end.

Definition shunting_yard (expr : list Token) : result (list Token) :=
  (st <- shunt_all expr ([], []) ;;
   pop_remaining (fst st) (snd st))%result.

Definition infix_to_postfix (text : string) : result (list Token) :=
  (toks <- tokenize text ;; shunting_yard toks)%result.

(** ** Python numbers *)

Inductive pyval : Type :=
| PyInt (n : Z)
| PyFloat (x : float)
| PyComplex (re im : float).

Inductive arith : Type := Add | Sub | Mul | TrueDiv.

(** Conversion of an int to a float: nearest value, [OverflowError] when
    the int is too large. *)
Definition int_to_float (n : Z) : result float :=
  let x := SF2Prim (binary_normalize FloatOps.prec emax n 0 false) in
  if is_infinity x then Raise OverflowError else Ok x.

(** [int / int]: the correctly rounded quotient. *)
Definition int_true_divide (a b : Z) : result float :=
  if b =? 0 then Raise ZeroDivisionError
  else
    let x := float_of_ratio (xorb (a <? 0) (b <? 0)) (Z.abs a) (Z.abs b) in
    if is_infinity x then Raise OverflowError else Ok x.

Definition arith_int (op : arith) (a b : Z) : result pyval :=
  match op with
  | Add => Ok (PyInt (a + b))
  | Sub => Ok (PyInt (a - b))
  | Mul => Ok (PyInt (a * b))
  | TrueDiv => (x <- int_true_divide a b ;; Ok (PyFloat x))%result
  end.

Definition arith_float (op : arith) (x y : float) : result pyval :=
  match op with
  | Add => Ok (PyFloat (x + y))
  | Sub => Ok (PyFloat (x - y))
  | Mul => Ok (PyFloat (x * y))
  | TrueDiv =>
      if PrimFloat.eqb y 0 then Raise ZeroDivisionError
      else Ok (PyFloat (x / y))
  end.

(** The float of an int or a float operand. *)
Definition as_float (v : pyval) : result float :=
  match v with
  | PyInt n => int_to_float n
  | PyFloat x => Ok x
  | PyComplex _ _ => Raise TypeError
  end.

(** The exact comparison of a float with an int; [None] for a NaN. *)
Definition float_int_compare (x : float) (n : Z) : option comparison :=
  match Prim2SF x with
  | S754_nan => None
  | S754_infinity s => Some (if s then Lt else Gt)
  | S754_zero _ => Some (0 ?= n)
  | S754_finite s m e =>
      let v := if s then Zneg m else Zpos m in
      Some (if 0 <=? e then v * 2 ^ e ?= n else v ?= n * 2 ^ (- e))
  end.

(** [a < b] *)
Definition py_lt (a b : pyval) : result bool :=
  match a, b with
  | PyInt m, PyInt n => Ok (m <? n)
  | PyFloat x, PyFloat y => Ok (PrimFloat.ltb x y)
  | PyFloat x, PyInt n =>
      Ok (match float_int_compare x n with Some Lt => true | _ => false end)
  | PyInt n, PyFloat y =>
      Ok (match float_int_compare y n with Some Gt => true | _ => false end)
  | _, _ => Raise TypeError
  end.

(** [max(a, b)] keeps [a] unless [b > a]; [min(a, b)] keeps [a] unless
    [b < a]. *)
Definition py_max (a b : pyval) : result pyval :=
  (c <- py_lt a b ;; Ok (if c : bool then b else a))%result.
Definition py_min (a b : pyval) : result pyval :=
  (c <- py_lt b a ;; Ok (if c : bool then b else a))%result.

Definition math_e : float := 0x1.5bf0a8b145769p+1%float.
Definition math_pi : float := 0x1.921fb54442d18p+1%float.

(** ** The Python runtime and the C library

    What the handlers call and this repository does not define: the random
    generator, arithmetic that involves a complex number, [%] outside the
    integers, [**], and the functions of the [math] module. Every statement
    of the evaluator holds for every runtime. *)
Class PyRuntime : Type := {
  rng : Type;
  random_random : rng -> float * rng;
  complex_arith : arith -> pyval -> pyval -> result pyval;
  complex_abs : float -> float -> result pyval;
  inexact_mod : pyval -> pyval -> result pyval;
  py_pow : pyval -> pyval -> result pyval;
  math_factorial : pyval -> result pyval;
  math_log : pyval -> result pyval;
  math_log_base : pyval -> pyval -> result pyval;
  math_sqrt : pyval -> result pyval;
  math_exp : pyval -> result pyval;
  math_sin : pyval -> result pyval;
  math_cos : pyval -> result pyval;
  math_tan : pyval -> result pyval;
  math_sinh : pyval -> result pyval;
  math_cosh : pyval -> result pyval;
  math_tanh : pyval -> result pyval;
  math_asin : pyval -> result pyval;
  math_acos : pyval -> result pyval;
  math_atan : pyval -> result pyval;
  math_asinh : pyval -> result pyval;
  math_acosh : pyval -> result pyval;
  math_atanh : pyval -> result pyval
}.

(** Computations over a mutable state [S]: the state survives a [Raise]. *)
Definition prog (S A : Type) : Type := S -> result A * S.

Definition ret {S A : Type} (a : A) : prog S A := fun s => (Ok a, s).
Definition raise {S A : Type} (e : exn) : prog S A := fun s => (Raise e, s).
Definition bind {S A B : Type} (c : prog S A) (k : A -> prog S B) : prog S B :=
  fun s =>
    match c s with
    | (Ok a, s1) => k a s1
    | (Raise e, s1) => (Raise e, s1)
    end.
(** A pure computation that may raise. *)
Definition lift {S A : Type} (r : result A) : prog S A := fun s => (r, s).

Declare Scope prog_scope.
Delimit Scope prog_scope with prog.
Notation "x <- c ;; k" := (bind c (fun x => k))
  (at level 61, c at next level, right associativity) : prog_scope.
Notation "c ;; k" := (bind c (fun _ => k))
  (at level 61, right associativity) : prog_scope.

(** [stack.pop()] *)
Definition pop : prog (list pyval) pyval :=
  fun stack =>
    match stack with
    | x :: rest => (Ok x, rest)
    | [] => (Raise IndexError, stack)
    end.

(** [stack.pop(-2)] *)
Definition pop_2 : prog (list pyval) pyval :=
  fun stack =>
    match stack with
    | x :: y :: rest => (Ok y, x :: rest)
    | _ => (Raise IndexError, stack)
    end.

(** [while stack: acc = f(acc, stack.pop())] *)
Fixpoint drain (f : pyval -> pyval -> result pyval) (acc : pyval)
  (stack : list pyval) : result pyval * list pyval :=
  match stack with
  | [] => (Ok acc, [])
  | x :: rest =>
      match f acc x with
      | Ok acc1 => drain f acc1 rest
      | Raise e => (Raise e, rest)
      end
  end.

(** The stack that Python shows as the list [l]. *)
Definition of_py_list {A : Type} (l : list A) : list A := rev l.

Section Evaluator.
Context {RT : PyRuntime}.

Definition py_arith (op : arith) (a b : pyval) : result pyval :=
  match a, b with
  | PyInt m, PyInt n => arith_int op m n
  | PyComplex _ _, _ | _, PyComplex _ _ => complex_arith op a b
  | _, _ => (x <- as_float a ;; y <- as_float b ;; arith_float op x y)%result
  end.

(** [a % b] *)
Definition py_mod (a b : pyval) : result pyval :=
  match a, b with
  | PyInt m, PyInt n =>
      if n =? 0 then Raise ZeroDivisionError else Ok (PyInt (m mod n))
  | _, _ => inexact_mod a b
  end.

Definition py_abs (a : pyval) : result pyval :=
  match a with
  | PyInt n => Ok (PyInt (Z.abs n))
  | PyFloat x => Ok (PyFloat (abs x))
  | PyComplex re im => complex_abs re im
  end.

(** The calculator instance, the list object passed as [stack], and the
    state of the [random] module. *)
Record world : Type := {
  ans : pyval;
  stack : list pyval;
  gen : rng
}.

(** A handler: [lambda stack: ...]. *)
Definition handler : Type := prog world pyval.

(** A handler that only uses its argument. *)
Definition on_stack {A : Type} (h : prog (list pyval) A) : prog world A :=
  fun w =>
    let (r, stack1) := h (stack w) in
    (r, {| ans := ans w; stack := stack1; gen := gen w |}).

(** [stack.pop(-2) <op> stack.pop()] and the like: the arguments are
    evaluated left to right. *)
Definition binary (f : pyval -> pyval -> result pyval) : handler :=
  on_stack (a <- pop_2 ;; b <- pop ;; lift (f a b))%prog.
Definition unary (f : pyval -> result pyval) : handler :=
  on_stack (a <- pop ;; lift (f a))%prog.

Definition stacksum : handler := on_stack (drain (py_arith Add) (PyInt 0)).
Definition stackproduct : handler := on_stack (drain (py_arith Mul) (PyInt 1)).

Definition operators : list (string * handler) :=
  [ ("++", stacksum);
    ("**", stackproduct);
    ("+", binary (py_arith Add));
    ("-", binary (py_arith Sub));
    ("*", binary (py_arith Mul));
    ("/", binary (py_arith TrueDiv));
    ("%", binary py_mod);
    ("^", binary py_pow);
    ("!", unary math_factorial);
    ("ln", unary math_log);
    ("log", binary math_log_base);
    ("log2", unary (fun x => math_log_base x (PyInt 2)));
    ("log10", unary (fun x => math_log_base x (PyInt 10)));
    ("rand", fun w =>
               let (x, g) := random_random (gen w) in
               (Ok (PyFloat x), {| ans := ans w; stack := stack w; gen := g |}));
    ("sqrt", unary math_sqrt);
    ("exp", unary math_exp);
    ("sin", unary math_sin);
    ("cos", unary math_cos);
    ("tan", unary math_tan);
    ("sinh", unary math_sinh);
    ("cosh", unary math_cosh);
    ("tanh", unary math_tanh);
    ("arcsin", unary math_asin);
    ("arccos", unary math_acos);
    ("arctan", unary math_atan);
    ("arcsinh", unary math_asinh);
    ("arccosh", unary math_acosh);
    ("arctanh", unary math_atanh);
    ("max", on_stack (a <- pop ;; b <- pop ;; lift (py_max a b))%prog);
    ("min", on_stack (a <- pop ;; b <- pop ;; lift (py_min a b))%prog);
    ("abs", unary py_abs);
    ("ans", fun w => (Ok (ans w), w)) ].

(** [operator(tok)]: the handler, or [None] for Python's [False]. *)
Definition operator (tok : string) : option handler := lookup tok operators.

(** [stack.append(v)] *)
Definition push (v : pyval) : prog world unit :=
  fun w => (Ok tt, {| ans := ans w; stack := v :: stack w; gen := gen w |}).

(** [self.ans = v] *)
Definition set_ans (v : pyval) : prog world unit :=
  fun w => (Ok tt, {| ans := v; stack := stack w; gen := gen w |}).

Definition unexpected (type value : string) : exn :=
  SyntaxError ("unexpected " ++ type ++ ": " ++ dquote ++ value ++ dquote)%string.

Definition apply_operation (value : string) : prog world unit :=
  match operator value with
  | None =>
      raise (SyntaxError
               ("unknown operator/function: " ++ dquote ++ value ++ dquote)%string)
  | Some operation => (r <- operation ;; set_ans r ;; push r)%prog
  end.

(** The body of [for token in expr]. *)
Definition eval_token (token : Token) : prog world unit :=
  match token with
  | Literal value => push (PyFloat value)
  | Constant value =>
      if String.eqb value "e" then push (PyFloat math_e)
      else if String.eqb value "pi" then push (PyFloat math_pi)
      else ret tt
  | Operator value | Function value => apply_operation value
  | Separator _ => ret tt
  | LParen value => raise (unexpected "LParen" value)
  | RParen value => raise (unexpected "RParen" value)
  end.

Fixpoint eval_tokens (expr : list Token) : prog world unit :=
  match expr with
  | [] => ret tt
  | token :: rest => (eval_token token ;; eval_tokens rest)%prog
  end.

Definition not_one : exn :=
  Warning "there should be exactly one element left on stack".

(** [eval(expr, stack)], the list object [stack] being the one of the
    world. *)
Definition eval (expr : list Token) : prog world (list pyval) :=
  (eval_tokens expr ;;
   fun w =>
     if (List.length (stack w) =? 1)%nat then (Ok (stack w), w)
     else (Raise not_one, w))%prog.

Definition with_stack (s : list pyval) (w : world) : world :=
  {| ans := ans w; stack := s; gen := gen w |}.

(** [eval(expr)]: [stack] is [None] and a new list is made. *)
Definition eval_fresh (expr : list Token) : prog world (list pyval) :=
  fun w => eval expr (with_stack [] w).

(** A new [RPNCalculator()]: the class attribute [ans = 0]. *)
Definition new_calculator (g : rng) : world :=
  {| ans := PyInt 0; stack := []; gen := g |}.

(** [round(num, 6)], whose value is only printed: it is defined on ints and
    on floats (an infinity or a NaN rounds to itself) and raises
    [TypeError] on a complex number. *)
Definition round_6 (num : pyval) : result unit :=
  match num with
  | PyInt _ | PyFloat _ => Ok tt
  | PyComplex _ _ => Raise TypeError
  end.

(** [for i, num in enumerate(values): print(..., round(num, 6))] *)
Fixpoint print_values (values : list pyval) : result unit :=
  match values with
  | [] => Ok tt
  | num :: rest =>
      match round_6 num with
      | Ok _ => print_values rest
      | Raise e => Raise e
      end
  end.

(** The [finally] block of [interactive]: the stack is printed from its
    bottom. What is printed is left out, the exception is not. *)
Definition print_stack (w : world) : result unit :=
  print_values (rev (stack w)).

(** One turn of the loop of [interactive], after [input] returned [line]:
    what the loop does next, and the calculator and stack it goes on
    with. *)
Inductive turn : Type :=
| Continue (printed : option exn)
| Break
| Propagate (e : exn).

Definition handle (e : exn) : turn :=
  match e with
  | Warning _ => Continue None
  | SyntaxError _ | IndexError | ZeroDivisionError => Continue (Some e)
  | _ => Propagate e
  end.

(** The [try] block and its [except] clauses. *)
Definition interactive_try (line : string) (w : world) : turn * world :=
  if String.eqb line "quit" || String.eqb line "exit" then (Break, w)
  else if String.eqb line "pop" then
    match on_stack pop w with
    | (Ok _, w1) => (Continue None, w1)
    | (Raise e, w1) => (handle e, w1)
    end
  else if String.eqb line "clear" then (Continue None, with_stack [] w)
  else
    match tokenize line with
    | Raise e => (handle e, w)
    | Ok toks =>
        match eval toks w with
        | (Ok s, w1) => (Continue None, with_stack s w1)
        | (Raise e, w1) => (handle e, w1)
        end
    end.

(** The [try] statement with its [finally] block: an exception raised
    while the stack is printed takes the place of what the [try] block and
    its [except] clauses decided. *)
Definition interactive_turn (line : string) (w : world) : turn * world :=
  let (t, w1) := interactive_try line w in
  match print_stack w1 with
  | Ok _ => (t, w1)
  | Raise e => (Propagate e, w1)
  end.

End Evaluator.

(** A runtime to run examples with: its generator draws 1/2, 1/3, 1/4, ...
    and the other functions all raise. No example below reaches those. *)
Definition example_runtime : PyRuntime :=
  {| rng := Z;
     random_random := fun n => (float_of_ratio false 1 (n + 2), n + 1);
     complex_arith := fun _ _ _ => Raise TypeError;
     complex_abs := fun _ _ => Raise TypeError;
     inexact_mod := fun _ _ => Raise TypeError;
     py_pow := fun _ _ => Raise TypeError;
     math_factorial := fun _ => Raise TypeError;
     math_log := fun _ => Raise TypeError;
     math_log_base := fun _ _ => Raise TypeError;
     math_sqrt := fun _ => Raise TypeError;
     math_exp := fun _ => Raise TypeError;
     math_sin := fun _ => Raise TypeError;
     math_cos := fun _ => Raise TypeError;
     math_tan := fun _ => Raise TypeError;
     math_sinh := fun _ => Raise TypeError;
     math_cosh := fun _ => Raise TypeError;
     math_tanh := fun _ => Raise TypeError;
     math_asin := fun _ => Raise TypeError;
     math_acos := fun _ => Raise TypeError;
     math_atan := fun _ => Raise TypeError;
     math_asinh := fun _ => Raise TypeError;
     math_acosh := fun _ => Raise TypeError;
     math_atanh := fun _ => Raise TypeError |}.

Definition fresh_calculator : @world example_runtime :=
  @new_calculator example_runtime 0.

(** ** Vocabulary of the statements *)

(** The kinds of token a postfix sequence is made of. *)
Definition postfix_kind (t : Token) : bool :=
  match t with
  | Literal _ | Constant _ | Operator _ | Function _ => true
  | LParen _ | RParen _ | Separator _ => false
  end.

(** A number: a token that goes straight to the output. *)
Definition is_operand (t : Token) : bool :=
  match t with
  | Literal _ | Constant _ => true
  | _ => false
  end.

(** The kinds of token [shunting_yard] pushes on its stack. *)
Definition stack_kind (t : Token) : bool :=
  match t with
  | Function _ | Operator _ | LParen _ => true
  | Literal _ | Constant _ | RParen _ | Separator _ => false
  end.

(** The fold of [f] over the values of a stack, from its top. *)
Definition fold_values (f : pyval -> pyval -> result pyval) (acc : pyval)
  (values : list pyval) : result pyval :=
  fold_left (fun r x => (a <- r ;; f a x)%result) values (Ok acc).

(** The sum and the product of floats, in the order given. *)
Definition float_sum (xs : list float) : float := fold_left PrimFloat.add xs 0%float.
Definition float_product (xs : list float) : float := fold_left PrimFloat.mul xs 1%float.

(** A token that applies the [ans] or the [rand] handler. *)
Definition reads_register_or_generator (t : Token) : bool :=
  match t with
  | Operator v | Function v => String.eqb v "ans" || String.eqb v "rand"
  | _ => false
  end.

(** ** The two programs *)

Section Programs.
Context {RT : PyRuntime}.

(** [main] of [expression.py] once [input] has returned [line]: the postfix
    sequence it prints, when it gets that far, and what the [eval] of a new
    calculator returns or raises. *)
Definition expression_main (line : string) (g : rng)
  : option (list Token) * result (list pyval) :=
  match tokenize line with
  | Raise e => (None, Raise e)
  | Ok toks =>
      match shunting_yard toks with
      | Raise e => (None, Raise e)
      | Ok rpnexpr => (Some rpnexpr, fst (eval_fresh rpnexpr (new_calculator g)))
      end
  end.

(** The loop of [interactive] over the lines [input] returns, the end of
    the input ([EOFError]) after the last one: the turns taken and the
    calculator and stack at the end. At the end of the input the loop
    breaks, and its [finally] block prints the stack once more. *)
Fixpoint interactive_loop (lines : list string) (w : world) : list turn * world :=
  match lines with
  | [] =>
      match print_stack w with
      | Ok _ => ([], w)
      | Raise e => ([Propagate e], w)
      end
  | line :: rest =>
      match interactive_turn line w with
      | (Continue printed, w1) =>
          let (turns, w2) := interactive_loop rest w1 in
          (Continue printed :: turns, w2)
      | (t, w1) => ([t], w1)
      end
  end.

(** [interactive()]: a new calculator and an empty stack. *)
Definition interactive (lines : list string) (g : rng) : list turn * world :=
  interactive_loop lines (new_calculator g).

End Programs.

(** ** More vocabulary *)

(** The characters the number buffer collects. *)
Definition number_char (c : ascii) : bool := isdigit c || char_in c "-.".

(** The characters [tokenize] has a branch for. *)
Definition recognized (c : ascii) : bool :=
  number_char c || isalpha c || in_OPS (one c) || char_in c "(["
  || char_in c ")]" || Ascii.eqb c "," || isspace c.

Definition name_in (v : string) (names : list string) : bool :=
  existsb (String.eqb v) names.

(** The shape of the tokens [tokenize] builds. *)
Definition tokenizer_made (t : Token) : bool :=
  match t with
  | Literal _ => true
  | Constant v => name_in v ["e"; "pi"]
  | Function v =>
      negb (name_in v ["e"; "pi"]) && negb (String.eqb v EmptyString)
      && forallb isalpha (list_ascii_of_string v)
  | Operator v => name_in v ["+"; "/"; "*"; "^"]
  | LParen v => name_in v ["("; "["]
  | RParen v => name_in v [")"; "]"]
  | Separator v => String.eqb v ","
  end.

Definition is_Separator (t : Token) : bool :=
  match t with Separator _ => true | _ => false end.

(** A left-associative operator of [OPS]. *)
Definition left_operator (v : string) : bool :=
  match lookup v OPS with
  | Some o => match assoc o with L => true | R => false end
  | None => false
  end.

Definition not_LParen (t : Token) : bool := negb (is_LParen t).

(** [OPS[v].prec] *)
Definition prec_of (v : string) : Z :=
  match lookup v OPS with
  | Some o => prec o
  | None => 0
  end.

(** The tokens of an expression without brackets, separators and [^], and
    the tokens they put on the operator stack. *)
Definition flat_token (t : Token) : bool :=
  match t with
  | Literal _ | Constant _ | Function _ => true
  | Operator v => left_operator v
  | _ => false
  end.
Definition flat_stack (t : Token) : bool :=
  match t with
  | Function _ => true
  | Operator v => left_operator v
  | _ => false
  end.

(** The state [tokenize] starts from. *)
Definition no_tokens : tokenizer :=
  {| tokens := []; letter_buffer := []; number_buffer := [] |}.

(** The state [t] with the tokens [pre] before its own. *)
Definition prepend (pre : list Token) (t : tokenizer) : tokenizer :=
  {| tokens := pre ++ tokens t;
     letter_buffer := letter_buffer t;
     number_buffer := number_buffer t |}.

(** The token of a character that is a token by itself. *)
Definition single (c : ascii) : option Token :=
  if in_OPS (one c) then Some (Operator (one c))
  else if char_in c "([" then Some (LParen (one c))
  else if char_in c ")]" then Some (RParen (one c))
  else if Ascii.eqb c "," then Some (Separator (one c))
  else None.

(** What holds of the state of [tokenize] all along. *)
Definition tokenizer_ok (t : tokenizer) : Prop :=
  forallb tokenizer_made (tokens t) = true
  /\ forallb isalpha (letter_buffer t) = true.

(** [parse_decimal] after the sign. *)
Definition parse_unsigned (neg : bool) (s1 : list ascii) : option (bool * Z * Z) :=
  let (ip, s2) := span_digits s1 in
  match s2 with
  | [] =>
      match ip with
      | [] => None
      | _ => Some (neg, digits_value ip, 1)
      end
  | "."%char :: s3 =>
      let (fp, s4) := span_digits s3 in
      match s4, ip ++ fp with
      | [], _ :: _ => Some (neg, digits_value (ip ++ fp), 10 ^ Z.of_nat (List.length fp))
      | _, _ => None
      end
  | _ => None
  end.

(** * The tokenizer *)

Lemma flush_numbers_lone_minus (toks : list Token) (letters : list ascii) :
  flush_numbers
    {| tokens := toks; letter_buffer := letters; number_buffer := ["-"%char] |}
  = Raise ValueError.
Proof. reflexivity. Qed.

Lemma number_buffer_flush_letters (t : tokenizer) :
  number_buffer (flush_letters t) = number_buffer t.
Proof. unfold flush_letters. destruct (letter_buffer t); reflexivity. Qed.

(** C2: when the number buffer holds the single character [-], the flush
    appends the [Operator] token and then still converts the buffer to a
    float, which fails: [empty_buffers] raises [ValueError] whatever the
    tokens and letters gathered so far, and so does [tokenize] on ["1 - 2"]. *)
Theorem lone_minus_flush_raises :
  (forall (toks : list Token) (letters : list ascii),
      empty_buffers
        {| tokens := toks; letter_buffer := letters; number_buffer := ["-"%char] |}
      = Raise ValueError)
  /\ tokenize "1 - 2" = Raise ValueError.
Proof.
  split; [| reflexivity].
  intros toks letters. unfold empty_buffers.
  set (t := {| tokens := toks; letter_buffer := letters;
               number_buffer := ["-"%char] |}).
  pose proof (number_buffer_flush_letters t) as Hn.
  destruct (flush_letters t) as [toks1 letters1 numbers1].
  simpl in Hn. subst numbers1. apply flush_numbers_lone_minus.
Qed.

(** * The reorderer *)

Lemma shunt_all_app (pre post : list Token) :
  forall st,
    shunt_all (pre ++ post) st
    = (st1 <- shunt_all pre st ;; shunt_all post st1)%result.
Proof.
  induction pre as [| token pre IH]; intros st; cbn [app shunt_all rbind].
  - reflexivity.
  - destruct (shunt token st) as [st1 | e]; cbn [rbind]; [apply IH | reflexivity].
Qed.

Lemma shunt_all_operands (operands : list Token) :
  forall stack output,
    forallb is_operand operands = true ->
    shunt_all operands (stack, output) = Ok (stack, output ++ operands).
Proof.
  induction operands as [| t operands IH]; intros stack output H.
  - cbn. rewrite app_nil_r. reflexivity.
  - cbn [forallb] in H. apply andb_true_iff in H as [Ht H].
    cbn [shunt_all].
    replace (shunt t (stack, output)) with (Ok (stack, output ++ [t])).
    + cbn [rbind]. rewrite IH by assumption. rewrite <- app_assoc. reflexivity.
    + destruct t; try discriminate Ht; reflexivity.
Qed.

(** C1: on ["2^3^2"] the reorderer does not produce a postfix sequence. The
    first [^] meets an empty operator stack; the guard [stack and ...] only
    protects the left-associative disjunct of the loop condition, so the
    right-associative disjunct reads [stack[-1]] and raises [IndexError].
    The same happens to every expression whose first token after its
    leading numbers is [^]. *)
Theorem power_on_empty_stack_raises :
  tokenize "2^3^2"
  = Ok [Literal 2; Operator "^"; Literal 3; Operator "^"; Literal 2]
  /\ (forall output : list Token,
         operator_condition (Operator "^") [] = Raise IndexError
         /\ pop_operators (Operator "^") [] output = Raise IndexError)
  /\ infix_to_postfix "2^3^2" = Raise IndexError
  /\ (forall operands rest : list Token,
         forallb is_operand operands = true ->
         shunting_yard (operands ++ Operator "^" :: rest) = Raise IndexError).
Proof.
  repeat split.
  intros operands rest H. unfold shunting_yard.
  rewrite shunt_all_app, shunt_all_operands by assumption.
  reflexivity.
Qed.

Lemma power_on_empty_stack_example :
  forallb is_operand [Literal 2] = true
  /\ shunting_yard
       ([Literal 2] ++ Operator "^" :: [Literal 3; Operator "^"; Literal 2])
     = Raise IndexError.
Proof.
  split; [reflexivity |].
  exact (proj2 (proj2 (proj2 power_on_empty_stack_raises))
           [Literal 2] [Literal 3; Operator "^"; Literal 2] eq_refl).
Defined.

Lemma pop_until_LParen_none (stack : list Token) :
  forall output,
    existsb is_LParen stack = false ->
    fst (pop_until_LParen stack output) = [].
Proof.
  induction stack as [| t rest IH]; intros output; simpl; [reflexivity |].
  destruct (is_LParen t); simpl; [discriminate | apply IH].
Qed.

(** C4: ["(3+4"] fails with the mismatched-parentheses [SyntaxError], but
    ["3+4)"] does not: once the operators are popped the stack is empty and
    the test [stack[-1].type == 'LParen'] raises [IndexError], as for every
    closing bracket met when the operator stack holds no opening bracket. *)
Theorem unmatched_close_bracket_raises_IndexError :
  infix_to_postfix "(3+4" = Raise (SyntaxError "mismatched parentheses")
  /\ infix_to_postfix "3+4)" = Raise IndexError
  /\ (forall (value : string) (stack output : list Token),
         existsb is_LParen stack = false ->
         shunt (RParen value) (stack, output) = Raise IndexError).
Proof.
  repeat split.
  intros value stack output H. cbn [shunt].
  pose proof (pop_until_LParen_none stack output H) as Hnone.
  destruct (pop_until_LParen stack output) as [stack1 output1].
  simpl in Hnone. subst stack1. reflexivity.
Qed.

Lemma unmatched_close_bracket_example :
  existsb is_LParen [Operator "+"] = false
  /\ shunt (RParen ")") ([Operator "+"], [Literal 3; Literal 4])
     = Raise IndexError.
Proof.
  split; [reflexivity |].
  exact (proj2 (proj2 unmatched_close_bracket_raises_IndexError)
           ")" [Operator "+"] [Literal 3; Literal 4] eq_refl).
Defined.

(** ** Tokens of the output *)

Lemma OPS_prec_le_4 (key : string) (o : OperatorInfo) :
  lookup key OPS = Some o -> prec o <= 4.
Proof.
  unfold OPS; simpl.
  repeat match goal with
         | |- context [String.eqb key ?k] => destruct (String.eqb key k)
         end;
    intros H; inversion H; subst; simpl; lia.
Qed.

Lemma OPS_R_prec (key : string) (o : OperatorInfo) :
  lookup key OPS = Some o -> assoc o = R -> prec o = 4.
Proof.
  unfold OPS; simpl.
  repeat match goal with
         | |- context [String.eqb key ?k] => destruct (String.eqb key k)
         end;
    intros H; inversion H; subst; simpl; intros HR; congruence.
Qed.

Lemma OPS_of_lookup (t : Token) (o : OperatorInfo) :
  OPS_of t = Ok o -> exists key, lookup key OPS = Some o.
Proof.
  destruct t as [x|v|v|v|v|v|v]; unfold OPS_of; try discriminate;
    destruct (lookup v OPS) eqn:E; try discriminate;
    intros H; inversion H; subst; eauto.
Qed.

(** The loop of the [Operator] branch only ever pops an [Operator]. *)
Lemma operator_condition_true (token : Token) (stack : list Token) :
  operator_condition token stack = Ok true ->
  exists t rest, stack = t :: rest /\ is_Operator t = true.
Proof.
  unfold operator_condition.
  destruct stack as [| t rest]; simpl.
  - destruct (OPS_of token) as [o |]; simpl; try discriminate.
    destruct (assoc o); discriminate.
  - destruct (is_Operator t) eqn:Ht; [eauto |]. simpl.
    destruct (OPS_of token) as [o |] eqn:Eo; simpl; try discriminate.
    destruct (assoc o) eqn:Ea; try discriminate.
    destruct (OPS_of t) as [o1 |] eqn:Eo1; simpl; try discriminate.
    intros H. inversion H as [Hlt]. apply Z.ltb_lt in Hlt.
    apply OPS_of_lookup in Eo as [k Hk]. apply OPS_of_lookup in Eo1 as [k1 Hk1].
    pose proof (OPS_R_prec _ _ Hk Ea). pose proof (OPS_prec_le_4 _ _ Hk1). lia.
Qed.

Lemma forallb_snoc {A : Type} (p : A -> bool) (l : list A) (x : A) :
  forallb p l = true -> p x = true -> forallb p (l ++ [x]) = true.
Proof.
  intros Hl Hx. rewrite forallb_app, Hl. simpl. rewrite Hx. reflexivity.
Qed.

Lemma pop_until_LParen_kinds (stack : list Token) :
  forall output stack1 output1,
    forallb stack_kind stack = true ->
    forallb postfix_kind output = true ->
    pop_until_LParen stack output = (stack1, output1) ->
    forallb stack_kind stack1 = true /\ forallb postfix_kind output1 = true.
Proof.
  induction stack as [| t rest IH]; intros output stack1 output1 Hs Ho; simpl.
  - intros H; inversion H; subst; auto.
  - simpl in Hs. apply andb_true_iff in Hs as [Ht Hrest].
    destruct (is_LParen t) eqn:El.
    + intros H; inversion H; subst. simpl. rewrite Ht, Hrest. auto.
    + apply IH; auto. apply forallb_snoc; auto.
      destruct t; simpl in *; congruence.
Qed.

Lemma pop_operators_kinds (token : Token) (stack : list Token) :
  forall output stack1 output1,
    forallb stack_kind stack = true ->
    forallb postfix_kind output = true ->
    pop_operators token stack output = Ok (stack1, output1) ->
    forallb stack_kind stack1 = true /\ forallb postfix_kind output1 = true.
Proof.
  induction stack as [| t rest IH]; intros output stack1 output1 Hs Ho; simpl.
  - destruct (operator_condition token []) as [[|] |]; simpl; try discriminate.
    intros H; inversion H; subst; auto.
  - destruct (operator_condition token (t :: rest)) as [[|] |] eqn:Ec;
      simpl; try discriminate.
    + apply operator_condition_true in Ec as (t' & rest' & Heq & Hop).
      inversion Heq; subst t' rest'.
      simpl in Hs. apply andb_true_iff in Hs as [Ht Hrest].
      apply IH; auto. apply forallb_snoc; auto.
      destruct t; simpl in *; congruence.
    + intros H; inversion H; subst; auto.
Qed.

Lemma shunt_kinds (token : Token) (stack output stack1 output1 : list Token) :
  forallb stack_kind stack = true ->
  forallb postfix_kind output = true ->
  shunt token (stack, output) = Ok (stack1, output1) ->
  forallb stack_kind stack1 = true /\ forallb postfix_kind output1 = true.
Proof.
  intros Hs Ho. destruct token as [x|v|v|v|v|v|v]; simpl.
  - intros H; inversion H; subst. split; auto. apply forallb_snoc; auto.
  - intros H; inversion H; subst. split; auto. apply forallb_snoc; auto.
  - intros H; inversion H; subst. simpl. auto.
  - destruct (pop_operators (Operator v) stack output) as [[s2 o2] |] eqn:Ep;
      simpl; try discriminate.
    intros H; inversion H; subst.
    apply pop_operators_kinds in Ep as [Hs2 Ho2]; auto.
  - intros H; inversion H; subst. simpl. auto.
  - destruct (pop_until_LParen stack output) as [s2 o2] eqn:Ep.
    apply pop_until_LParen_kinds in Ep as [Hs2 Ho2]; auto.
    destruct s2 as [| t s3]; simpl; try discriminate.
    destruct (is_LParen t); try discriminate.
    simpl in Hs2. apply andb_true_iff in Hs2 as [_ Hs3].
    destruct s3 as [| f s4].
    + intros H; inversion H; subst; auto.
    + destruct (is_Function f) eqn:Ef; intros H; inversion H; subst; auto.
      simpl in Hs3. apply andb_true_iff in Hs3 as [_ Hs4]. split; auto.
      apply forallb_snoc; auto. destruct f; simpl in *; congruence.
  - destruct (pop_until_LParen stack output) as [s2 o2] eqn:Ep.
    apply pop_until_LParen_kinds in Ep as [Hs2 Ho2]; auto.
    destruct s2; try discriminate.
    intros H; inversion H; subst; auto.
Qed.

Lemma shunt_all_kinds (expr : list Token) :
  forall stack output stack1 output1,
    forallb stack_kind stack = true ->
    forallb postfix_kind output = true ->
    shunt_all expr (stack, output) = Ok (stack1, output1) ->
    forallb stack_kind stack1 = true /\ forallb postfix_kind output1 = true.
Proof.
  induction expr as [| token rest IH]; intros stack output stack1 output1 Hs Ho;
    cbn [shunt_all].
  - intros H; inversion H; subst; auto.
  - destruct (shunt token (stack, output)) as [[s2 o2] |] eqn:E; cbn [rbind];
      try discriminate.
    apply shunt_kinds in E as [Hs2 Ho2]; auto.
    apply IH; auto.
Qed.

Lemma pop_remaining_kinds (stack : list Token) :
  forall output output1,
    forallb stack_kind stack = true ->
    forallb postfix_kind output = true ->
    pop_remaining stack output = Ok output1 ->
    forallb postfix_kind output1 = true.
Proof.
  induction stack as [| t rest IH]; intros output output1 Hs Ho; simpl.
  - intros H; inversion H; subst; auto.
  - simpl in Hs. apply andb_true_iff in Hs as [Ht Hrest].
    destruct (is_LParen t || is_RParen t) eqn:E; try discriminate.
    apply IH; auto. apply forallb_snoc; auto.
    destruct t; simpl in *; congruence.
Qed.

(** C10: whenever [shunting_yard] returns, every token of the sequence it
    returns is a [Literal], a [Constant], an [Operator] or a [Function]; no
    [LParen], [RParen] or [Separator] is ever part of it. *)
Theorem shunting_yard_output_kinds (expr output : list Token) :
  shunting_yard expr = Ok output ->
  Forall (fun t => postfix_kind t = true) output
  /\ (forall t, In t output ->
        is_LParen t = false /\ is_RParen t = false
        /\ match t with Separator _ => False | _ => True end).
Proof.
  unfold shunting_yard. intros H.
  destruct (shunt_all expr ([], [])) as [[stack1 output1] |] eqn:E;
    simpl in H; try discriminate.
  apply shunt_all_kinds in E as [Hs Ho]; auto.
  pose proof (pop_remaining_kinds _ _ _ Hs Ho H) as Hk.
  rewrite forallb_forall in Hk. split.
  - apply Forall_forall. exact Hk.
  - intros t Ht. specialize (Hk t Ht). destruct t; simpl in *; try discriminate; auto.
Qed.

Lemma shunting_yard_output_kinds_example :
  shunting_yard
    [LParen "("; Literal 3; Operator "+"; Literal 4; RParen ")";
     Operator "*"; Literal 2]
  = Ok [Literal 3; Literal 4; Operator "+"; Literal 2; Operator "*"]
  /\ Forall (fun t => postfix_kind t = true)
       [Literal 3; Literal 4; Operator "+"; Literal 2; Operator "*"].
Proof.
  split; [reflexivity |].
  apply (shunting_yard_output_kinds
           [LParen "("; Literal 3; Operator "+"; Literal 4; RParen ")";
            Operator "*"; Literal 2]).
  reflexivity.
Defined.

(** * The evaluator *)

Section EvaluatorFacts.
Context {RT : PyRuntime}.

Lemma eval_tokens_cons (token : Token) (rest : list Token) (w : world) :
  eval_tokens (token :: rest) w
  = match eval_token token w with
    | (Ok _, w1) => eval_tokens rest w1
    | (Raise e, w1) => (Raise e, w1)
    end.
Proof. reflexivity. Qed.

Lemma eval_tokens_app (pre post : list Token) :
  forall w,
    eval_tokens (pre ++ post) w
    = match eval_tokens pre w with
      | (Ok _, w1) => eval_tokens post w1
      | (Raise e, w1) => (Raise e, w1)
      end.
Proof.
  induction pre as [| token pre IH]; intros w.
  - reflexivity.
  - rewrite <- app_comm_cons, !eval_tokens_cons.
    destruct (eval_token token w) as [[[] | e] w1]; [apply IH | reflexivity].
Qed.

Lemma eval_unfold (expr : list Token) (w : world) :
  eval expr w
  = match eval_tokens expr w with
    | (Ok _, w1) =>
        if (List.length (stack w1) =? 1)%nat then (Ok (stack w1), w1)
        else (Raise not_one, w1)
    | (Raise e, w1) => (Raise e, w1)
    end.
Proof. reflexivity. Qed.

(** ** The two variadic handlers *)

Lemma drain_fold (f : pyval -> pyval -> result pyval) (s : list pyval) :
  forall acc v s1,
    drain f acc s = (Ok v, s1) -> s1 = [] /\ fold_values f acc s = Ok v.
Proof.
  unfold fold_values.
  induction s as [| x rest IH]; intros acc v s1; simpl.
  - intros H; inversion H; auto.
  - destruct (f acc x) as [acc1 | e]; [apply IH | discriminate].
Qed.

Lemma drain_add_floats (xs : list float) :
  forall x0,
    drain (py_arith Add) (PyFloat x0) (map PyFloat xs)
    = (Ok (PyFloat (fold_left PrimFloat.add xs x0)), []).
Proof.
  induction xs as [| x xs IH]; intros x0; simpl; [reflexivity | apply IH].
Qed.

Lemma drain_mul_floats (xs : list float) :
  forall x0,
    drain (py_arith Mul) (PyFloat x0) (map PyFloat xs)
    = (Ok (PyFloat (fold_left PrimFloat.mul xs x0)), []).
Proof.
  induction xs as [| x xs IH]; intros x0; simpl; [reflexivity | apply IH].
Qed.

Lemma drain_sum_floats (x : float) (xs : list float) :
  drain (py_arith Add) (PyInt 0) (map PyFloat (x :: xs))
  = (Ok (PyFloat (float_sum (x :: xs))), []).
Proof.
  change (drain (py_arith Add) (PyInt 0) (map PyFloat (x :: xs)))
    with (drain (py_arith Add) (PyFloat (0 + x)) (map PyFloat xs)).
  apply drain_add_floats.
Qed.

Lemma drain_product_floats (x : float) (xs : list float) :
  drain (py_arith Mul) (PyInt 1) (map PyFloat (x :: xs))
  = (Ok (PyFloat (float_product (x :: xs))), []).
Proof.
  change (drain (py_arith Mul) (PyInt 1) (map PyFloat (x :: xs)))
    with (drain (py_arith Mul) (PyFloat (1 * x)) (map PyFloat xs)).
  apply drain_mul_floats.
Qed.

Lemma on_stack_with_stack {A : Type} (h : prog (list pyval) A)
  (s : list pyval) (w : world) :
  on_stack h (with_stack s w)
  = (fst (h s), with_stack (snd (h s)) w).
Proof. unfold on_stack, with_stack. simpl. destruct (h s); reflexivity. Qed.

(** C7: [++] and [**] are the handlers [stacksum] and [stackproduct]. On the
    stack 1, 2, 3 the first returns 6.0 and on the stack 2, 3, 4 the second
    returns 24.0. On a stack of floats of any size they return the sum and
    the product of all its values and leave the stack empty (on the empty
    stack, the integers 0 and 1); and on any stack at all, whenever they
    return, the stack is empty and the value returned is the fold of
    addition, of multiplication, over every value the stack held. *)
Theorem variadic_reducers_drain_the_stack :
  (operator "++" = Some stacksum /\ operator "**" = Some stackproduct)
  /\ (forall w,
         stacksum (with_stack (of_py_list [PyFloat 1; PyFloat 2; PyFloat 3]) w)
         = (Ok (PyFloat 6), with_stack [] w))
  /\ (forall w,
         stackproduct (with_stack (of_py_list [PyFloat 2; PyFloat 3; PyFloat 4]) w)
         = (Ok (PyFloat 24), with_stack [] w))
  /\ (forall w,
         stacksum (with_stack [] w) = (Ok (PyInt 0), with_stack [] w)
         /\ stackproduct (with_stack [] w) = (Ok (PyInt 1), with_stack [] w))
  /\ (forall (x : float) (xs : list float) w,
         stacksum (with_stack (map PyFloat (x :: xs)) w)
         = (Ok (PyFloat (float_sum (x :: xs))), with_stack [] w)
         /\ stackproduct (with_stack (map PyFloat (x :: xs)) w)
            = (Ok (PyFloat (float_product (x :: xs))), with_stack [] w))
  /\ (forall (s : list pyval) w v w1,
         stacksum (with_stack s w) = (Ok v, w1) ->
         stack w1 = [] /\ fold_values (py_arith Add) (PyInt 0) s = Ok v)
  /\ (forall (s : list pyval) w v w1,
         stackproduct (with_stack s w) = (Ok v, w1) ->
         stack w1 = [] /\ fold_values (py_arith Mul) (PyInt 1) s = Ok v).
Proof.
  repeat apply conj; try reflexivity.
  - intros w; split; reflexivity.
  - intros x xs w. unfold stacksum, stackproduct.
    rewrite !on_stack_with_stack, drain_sum_floats, drain_product_floats.
    split; reflexivity.
  - intros s w v w1. unfold stacksum. rewrite on_stack_with_stack.
    destruct (drain (py_arith Add) (PyInt 0) s) as [r s1] eqn:E. simpl.
    intros H; inversion H; subst. simpl. eapply drain_fold; eassumption.
  - intros s w v w1. unfold stackproduct. rewrite on_stack_with_stack.
    destruct (drain (py_arith Mul) (PyInt 1) s) as [r s1] eqn:E. simpl.
    intros H; inversion H; subst. simpl. eapply drain_fold; eassumption.
Qed.

(** ** The answer register *)

(** C8: a new calculator holds the integer 0 in [ans]; when the handler of
    an [Operator] or [Function] token returns [v], the token leaves [ans]
    equal to [v] and [v] on top of the stack the handler left; the handler
    of [ans] returns the register and leaves the world, hence the stack,
    as it is; so a later [eval] of the token [ans], whatever stack it is
    given, pushes the value the register held and keeps it. *)
Theorem answer_register :
  (forall g, ans (new_calculator g) = PyInt 0)
  /\ (forall (value : string) (operation : handler) (w : world) v w1,
         operator value = Some operation ->
         operation w = (Ok v, w1) ->
         eval_token (Operator value) w
         = (Ok tt, {| ans := v; stack := v :: stack w1; gen := gen w1 |})
         /\ eval_token (Function value) w = eval_token (Operator value) w)
  /\ (exists operation : handler,
         operator "ans" = Some operation
         /\ forall w, operation w = (Ok (ans w), w))
  /\ (forall (w : world) (s : list pyval),
         eval [Function "ans"] (with_stack s w)
         = (match s with
            | [] => Ok [ans w]
            | _ => Raise not_one
            end,
            {| ans := ans w; stack := ans w :: s; gen := gen w |})).
Proof.
  repeat apply conj.
  - reflexivity.
  - intros value operation w v w1 Hop Hrun. split; [| reflexivity].
    cbn [eval_token]. unfold apply_operation. rewrite Hop.
    unfold bind. rewrite Hrun. reflexivity.
  - eexists. split; [reflexivity | reflexivity].
  - intros w s. destruct s; reflexivity.
Qed.

(** ** Evaluation of a reordered expression *)

(** C6: ["3+4*2"] is reordered to 3 4 2 * + and that sequence, evaluated on
    a fresh stack by any calculator, returns the single value 11.0. *)
Theorem precedence_example (w : world) :
  infix_to_postfix "3+4*2"
  = Ok [Literal 3; Literal 4; Literal 2; Operator "*"; Operator "+"]
  /\ eval_fresh [Literal 3; Literal 4; Literal 2; Operator "*"; Operator "+"] w
     = (Ok [PyFloat 11],
        {| ans := PyFloat 11; stack := [PyFloat 11]; gen := gen w |}).
Proof. split; reflexivity. Qed.

(** ** The size of the final stack *)



(** ** Failure part way *)

Lemma binary_raises (f : pyval -> pyval -> result pyval) (a b : pyval)
  (rest : list pyval) (e : exn) (w : world) :
  f a b = Raise e ->
  binary f (with_stack (b :: a :: rest) w) = (Raise e, with_stack rest w).
Proof.
  intros H. unfold binary. rewrite on_stack_with_stack.
  unfold bind, pop_2, pop, lift. cbn [fst snd]. rewrite H. reflexivity.
Qed.

(** C5: a failing [eval] does not restore the list it was given. The tokens
    before the failing one have had their effect, and so has the failing
    token up to the point where it raises: a binary handler that raises in
    its arithmetic has popped both operands. For the postfix form of
    ["1/0"], which is 1 0 /, that makes the list end as it began: the two
    values pushed are the two popped before the division raises, so the
    line [1 0 /] typed at the prompt of [interactive] leaves the stack as it
    was; the loop prints the error and goes on, unless the stack it then
    prints holds a value that cannot be rounded, when the [TypeError] of
    the printing ends it. *)
Theorem eval_failure_is_not_rolled_back :
  (forall (pre post : list Token) (token : Token) (w w1 w2 : world) (e : exn),
      eval_tokens pre w = (Ok tt, w1) ->
      eval_token token w1 = (Raise e, w2) ->
      eval (pre ++ token :: post) w = (Raise e, w2))
  /\ (forall (f : pyval -> pyval -> result pyval) (a b : pyval)
        (rest : list pyval) (e : exn) (w : world),
         f a b = Raise e ->
         binary f (with_stack (b :: a :: rest) w) = (Raise e, with_stack rest w))
  /\ infix_to_postfix "1/0" = Ok [Literal 1; Literal 0; Operator "/"]
  /\ (forall w : world,
         eval [Literal 1; Literal 0; Operator "/"] w
         = (Raise ZeroDivisionError, w))
  /\ (forall w : world,
         interactive_turn "1 0 /" w
         = (match print_stack w with
            | Ok _ => Continue (Some ZeroDivisionError)
            | Raise e => Propagate e
            end, w)).
Proof.
  repeat apply conj.
  - intros pre post token w w1 w2 e Hpre Htok.
    rewrite eval_unfold, eval_tokens_app, Hpre, eval_tokens_cons, Htok.
    reflexivity.
  - exact binary_raises.
  - reflexivity.
  - intros [a s g]. reflexivity.
  - intros [a s g]. unfold interactive_turn.
    change (interactive_try "1 0 /" {| ans := a; stack := s; gen := g |})
      with (Continue (Some ZeroDivisionError), {| ans := a; stack := s; gen := g |}).
    cbv beta iota zeta.
    destruct (print_stack {| ans := a; stack := s; gen := g |}); reflexivity.
Qed.

(** ** Evaluating a sequence again *)

Lemma lookup_In {A : Type} (key : string) (d : list (string * A)) (v : A) :
  lookup key d = Some v -> In (key, v) d.
Proof.
  induction d as [| [k v1] d IH]; simpl; [discriminate |].
  destruct (String.eqb key k) eqn:E.
  - apply String.eqb_eq in E. intros H; inversion H; subst. auto.
  - auto.
Qed.

Lemma handlers_use_the_stack :
  Forall (fun p : string * handler =>
            fst p = "ans" \/ fst p = "rand"
            \/ exists h : prog (list pyval) pyval, snd p = on_stack h)
    operators.
Proof.
  unfold operators, binary, unary, stacksum, stackproduct.
  repeat (constructor;
          [first [ left; reflexivity
                 | right; left; reflexivity
                 | right; right; eexists; reflexivity ] |]).
  constructor.
Qed.

Lemma operator_uses_the_stack (value : string) (operation : handler) :
  operator value = Some operation ->
  String.eqb value "ans" || String.eqb value "rand" = false ->
  exists h : prog (list pyval) pyval, operation = on_stack h.
Proof.
  intros Hop Hname. apply lookup_In in Hop.
  pose proof handlers_use_the_stack as HF. rewrite Forall_forall in HF.
  apply orb_false_iff in Hname as [Ha Hr].
  destruct (HF _ Hop) as [H | [H | H]]; simpl in H.
  - subst value. discriminate Ha.
  - subst value. discriminate Hr.
  - exact H.
Qed.

(** What a token other than [ans] and [rand] raises or pushes depends on the
    stack alone. *)
Lemma eval_token_stack_only (token : Token) (w w' : world) :
  reads_register_or_generator token = false ->
  stack w = stack w' ->
  fst (eval_token token w) = fst (eval_token token w')
  /\ stack (snd (eval_token token w)) = stack (snd (eval_token token w')).
Proof.
  intros Hname Hs.
  assert (Hop : forall value,
             String.eqb value "ans" || String.eqb value "rand" = false ->
             fst (apply_operation value w) = fst (apply_operation value w')
             /\ stack (snd (apply_operation value w))
                = stack (snd (apply_operation value w'))).
  { intros value Hv. unfold apply_operation.
    destruct (operator value) as [operation |] eqn:Eo.
    - destruct (operator_uses_the_stack _ _ Eo Hv) as [h ->].
      unfold bind, on_stack. rewrite <- Hs.
      destruct (h (stack w)) as [[v | e] s1]; simpl; auto.
    - simpl. auto. }
  destruct token as [x|v|v|v|v|v|v]; simpl in Hname |- *; auto.
  - rewrite Hs; auto.
  - destruct (String.eqb v "e"); [simpl; rewrite Hs; auto |].
    destruct (String.eqb v "pi"); simpl; rewrite Hs; auto.
Qed.

Lemma eval_tokens_stack_only (expr : list Token) :
  forall w w',
    forallb (fun t => negb (reads_register_or_generator t)) expr = true ->
    stack w = stack w' ->
    fst (eval_tokens expr w) = fst (eval_tokens expr w')
    /\ stack (snd (eval_tokens expr w)) = stack (snd (eval_tokens expr w')).
Proof.
  induction expr as [| token rest IH]; intros w w' Hn Hs.
  - simpl. auto.
  - cbn [forallb] in Hn. apply andb_true_iff in Hn as [Ht Hrest].
    apply negb_true_iff in Ht.
    rewrite !eval_tokens_cons.
    destruct (eval_token_stack_only token w w' Ht Hs) as [Hr Hs1].
    destruct (eval_token token w) as [[[] | e] w1];
      destruct (eval_token token w') as [[[] | e'] w1'];
      simpl in Hr, Hs1; try discriminate.
    + apply IH; assumption.
    + simpl. split; assumption.
Qed.

Lemma eval_stack_only (expr : list Token) (w w' : world) :
  forallb (fun t => negb (reads_register_or_generator t)) expr = true ->
  stack w = stack w' ->
  fst (eval expr w) = fst (eval expr w')
  /\ stack (snd (eval expr w)) = stack (snd (eval expr w')).
Proof.
  intros Hn Hs. rewrite !eval_unfold.
  destruct (eval_tokens_stack_only expr w w' Hn Hs) as [Hr Hs1].
  destruct (eval_tokens expr w) as [[[] | e] w1];
    destruct (eval_tokens expr w') as [[[] | e'] w1'];
    simpl in Hr, Hs1; try discriminate.
  - rewrite <- Hs1.
    destruct (List.length (stack w1) =? 1)%nat; simpl; split; auto.
  - simpl. inversion Hr. split; [reflexivity | assumption].
Qed.

(** C9: a sequence that applies neither [ans] nor [rand], evaluated twice by
    the same calculator, each time on a fresh stack, produces the same
    result and the same final stack both times. *)
Theorem eval_twice_agrees (expr : list Token) (w : world) :
  forallb (fun t => negb (reads_register_or_generator t)) expr = true ->
  let first := eval_fresh expr w in
  let second := eval_fresh expr (snd first) in
  fst first = fst second /\ stack (snd first) = stack (snd second).
Proof.
  intros Hn first second. subst first second. unfold eval_fresh.
  apply eval_stack_only; [assumption | reflexivity].
Qed.

End EvaluatorFacts.

(** * Runs on the example runtime *)

#[local] Existing Instance example_runtime.

Lemma variadic_reducers_example :
  stacksum (with_stack [PyInt 5; PyFloat 2] fresh_calculator)
  = (Ok (PyFloat 7), fresh_calculator)
  /\ stack fresh_calculator = []
  /\ fold_values (py_arith Add) (PyInt 0) [PyInt 5; PyFloat 2] = Ok (PyFloat 7).
Proof.
  split; [reflexivity |].
  apply (proj1 (proj2 (proj2 (proj2 (proj2 (proj2
           (@variadic_reducers_drain_the_stack example_runtime))))))
           [PyInt 5; PyFloat 2] fresh_calculator (PyFloat 7) fresh_calculator).
  reflexivity.
Defined.

Lemma answer_register_example :
  operator "+" = Some (binary (py_arith Add))
  /\ binary (py_arith Add) (with_stack [PyFloat 1; PyFloat 2] fresh_calculator)
     = (Ok (PyFloat 3), fresh_calculator)
  /\ eval_token (Operator "+") (with_stack [PyFloat 1; PyFloat 2] fresh_calculator)
     = (Ok tt, {| ans := PyFloat 3; stack := [PyFloat 3]; gen := 0 |}).
Proof.
  split; [reflexivity |]. split; [reflexivity |].
  apply (proj1 (proj2 (@answer_register example_runtime))
           "+" (binary (py_arith Add))
           (with_stack [PyFloat 1; PyFloat 2] fresh_calculator)
           (PyFloat 3) fresh_calculator);
    reflexivity.
Defined.



(** A failing [eval] leaves the list it was given changed: an unknown name
    after a literal leaves the literal on it, a division by zero leaves the
    values pushed before its operands, and the line [1/0] typed at the
    prompt of [interactive], whose tokens are evaluated in the order typed,
    fails on an empty stack with [IndexError] and leaves 1.0 on it. *)
Lemma failed_eval_changes_the_stack :
  (tokenize "1 foo" = Ok [Literal 1; Function "foo"]
   /\ eval [Literal 1; Function "foo"] (with_stack [PyFloat 5] fresh_calculator)
      = (Raise (SyntaxError
                  ("unknown operator/function: " ++ dquote ++ "foo" ++ dquote)%string),
         with_stack [PyFloat 1; PyFloat 5] fresh_calculator))
  /\ (tokenize "2 1 0 /" = Ok [Literal 2; Literal 1; Literal 0; Operator "/"]
      /\ eval [Literal 2; Literal 1; Literal 0; Operator "/"] fresh_calculator
         = (Raise ZeroDivisionError, with_stack [PyFloat 2] fresh_calculator))
  /\ (tokenize "1/0" = Ok [Literal 1; Operator "/"; Literal 0]
      /\ interactive_turn "1/0" fresh_calculator
         = (Continue (Some IndexError), with_stack [PyFloat 1] fresh_calculator)).
Proof. repeat split. Qed.

Lemma eval_failure_is_not_rolled_back_example :
  eval_tokens [Literal 1] (with_stack [PyFloat 5] fresh_calculator)
  = (Ok tt, with_stack [PyFloat 1; PyFloat 5] fresh_calculator)
  /\ eval_token (Function "foo") (with_stack [PyFloat 1; PyFloat 5] fresh_calculator)
     = (Raise (SyntaxError
                 ("unknown operator/function: " ++ dquote ++ "foo" ++ dquote)%string),
        with_stack [PyFloat 1; PyFloat 5] fresh_calculator)
  /\ eval ([Literal 1] ++ Function "foo" :: []) (with_stack [PyFloat 5] fresh_calculator)
     = (Raise (SyntaxError
                 ("unknown operator/function: " ++ dquote ++ "foo" ++ dquote)%string),
        with_stack [PyFloat 1; PyFloat 5] fresh_calculator).
Proof.
  split; [reflexivity |]. split; [reflexivity |].
  exact (proj1 (@eval_failure_is_not_rolled_back example_runtime)
           [Literal 1] [] (Function "foo")
           (with_stack [PyFloat 5] fresh_calculator)
           (with_stack [PyFloat 1; PyFloat 5] fresh_calculator)
           (with_stack [PyFloat 1; PyFloat 5] fresh_calculator)
           _ eq_refl eq_refl).
Defined.

(** The sequence [ans 1 +] returns 1.0 the first time and 2.0 the second;
    the sequence [rand] returns the successive draws of the generator. *)
Lemma eval_twice_differs :
  (tokenize "ans 1 +" = Ok [Function "ans"; Literal 1; Operator "+"]
   /\ eval_fresh [Function "ans"; Literal 1; Operator "+"] fresh_calculator
      = (Ok [PyFloat 1], {| ans := PyFloat 1; stack := [PyFloat 1]; gen := 0 |})
   /\ eval_fresh [Function "ans"; Literal 1; Operator "+"]
        {| ans := PyFloat 1; stack := [PyFloat 1]; gen := 0 |}
      = (Ok [PyFloat 2], {| ans := PyFloat 2; stack := [PyFloat 2]; gen := 0 |}))
  /\ (tokenize "rand" = Ok [Function "rand"]
      /\ eval_fresh [Function "rand"] fresh_calculator
         = (Ok [PyFloat 0.5],
            {| ans := PyFloat 0.5; stack := [PyFloat 0.5]; gen := 1 |})
      /\ eval_fresh [Function "rand"]
           {| ans := PyFloat 0.5; stack := [PyFloat 0.5]; gen := 1 |}
         = (Ok [PyFloat 0x1.5555555555555p-2],
            {| ans := PyFloat 0x1.5555555555555p-2;
               stack := [PyFloat 0x1.5555555555555p-2]; gen := 2 |})).
Proof. repeat split. Qed.

Lemma eval_twice_agrees_example :
  forallb (fun t => negb (reads_register_or_generator t))
    [Literal 3; Literal 4; Literal 2; Operator "*"; Operator "+"] = true
  /\ fst (eval_fresh [Literal 3; Literal 4; Literal 2; Operator "*"; Operator "+"]
            fresh_calculator)
     = fst (eval_fresh [Literal 3; Literal 4; Literal 2; Operator "*"; Operator "+"]
              (snd (eval_fresh
                      [Literal 3; Literal 4; Literal 2; Operator "*"; Operator "+"]
                      fresh_calculator))).
Proof.
  split; [reflexivity |].
  exact (proj1 (@eval_twice_agrees example_runtime
                  [Literal 3; Literal 4; Literal 2; Operator "*"; Operator "+"]
                  fresh_calculator eq_refl)).
Defined.

(** * More on the tokenizer *)

Lemma list_ascii_of_string_app (a b : string) :
  list_ascii_of_string (a ++ b)%string
  = list_ascii_of_string a ++ list_ascii_of_string b.
Proof. induction a as [| c a IH]; simpl; [reflexivity | now rewrite IH]. Qed.

Lemma tokenize_loop_app (a b : list ascii) :
  forall t,
    tokenize_loop (a ++ b) t
    = (t1 <- tokenize_loop a t ;; tokenize_loop b t1)%result.
Proof.
  induction a as [| c a IH]; intros t; cbn [app tokenize_loop rbind].
  - reflexivity.
  - destruct (tokenize_char c t) as [t1 | e]; cbn [rbind]; [apply IH | reflexivity].
Qed.

Lemma tokenize_unfold (expr : string) :
  tokenize expr
  = (t <- tokenize_loop (list_ascii_of_string expr) no_tokens ;;
     t1 <- empty_buffers t ;; Ok (tokens t1))%result.
Proof. reflexivity. Qed.

(** What the branches of [tokenize] tell about the character. *)
Lemma char_classes (c : ascii) :
  implb (isalpha c) (negb (number_char c))
  && implb (in_OPS (one c) && negb (number_char c))
       (tokenizer_made (Operator (one c)))
  && implb (char_in c "([") (tokenizer_made (LParen (one c)))
  && implb (char_in c ")]") (tokenizer_made (RParen (one c)))
  && implb (Ascii.eqb c ",") (tokenizer_made (Separator (one c)))
  && implb (is_ascii_digit c) (negb (Ascii.eqb c "-") && negb (Ascii.eqb c "."))
  = true.
Proof. destruct c as [[] [] [] [] [] [] [] []]; reflexivity. Qed.

Lemma implb_elim (a b : bool) : implb a b = true -> a = true -> b = true.
Proof. destruct a, b; simpl; congruence. Qed.

(** The loop only appends number characters to the number buffer. *)
Lemma tokenize_loop_numbers (cs : list ascii) :
  forall t,
    forallb number_char cs = true ->
    tokenize_loop cs t
    = Ok {| tokens := tokens t;
            letter_buffer := letter_buffer t;
            number_buffer := number_buffer t ++ cs |}.
Proof.
  induction cs as [| c cs IH]; intros t H.
  - cbn. rewrite app_nil_r. destruct t; reflexivity.
  - cbn [forallb] in H. apply andb_true_iff in H as [Hc Hcs].
    cbn [tokenize_loop]. unfold tokenize_char.
    change (isdigit c || char_in c "-.") with (number_char c). rewrite Hc.
    cbn [rbind]. rewrite IH by assumption. cbn [tokens letter_buffer number_buffer].
    rewrite <- app_assoc. reflexivity.
Qed.

(** ** The tokens [tokenize] returns *)

Lemma flush_letters_ok (t : tokenizer) :
  tokenizer_ok t -> tokenizer_ok (flush_letters t).
Proof.
  intros [Ht Hl]. unfold flush_letters.
  destruct (letter_buffer t) as [| c l] eqn:E; [split; [assumption | now rewrite E] |].
  split; [| reflexivity]. cbn [tokens].
  assert (Hf : tokenizer_made (Function (join (c :: l))) = true
               \/ (String.eqb (join (c :: l)) "e" || String.eqb (join (c :: l)) "pi") = true).
  { destruct (String.eqb (join (c :: l)) "e" || String.eqb (join (c :: l)) "pi") eqn:Ec;
      [now right | left].
    cbn [tokenizer_made name_in existsb]. rewrite orb_false_r, Ec.
    unfold join. rewrite list_ascii_of_string_of_list_ascii, Hl. reflexivity. }
  destruct (String.eqb (join (c :: l)) "e" || String.eqb (join (c :: l)) "pi") eqn:Ec.
  - apply forallb_snoc; [assumption |].
    cbn [tokenizer_made name_in existsb]. rewrite orb_false_r. exact Ec.
  - apply forallb_snoc; [assumption |]. destruct Hf as [Hf | Hf]; [exact Hf | discriminate].
Qed.

Lemma flush_letters_numbers (t : tokenizer) :
  number_buffer (flush_letters t) = number_buffer t.
Proof. unfold flush_letters. destruct (letter_buffer t); reflexivity. Qed.

Lemma flush_numbers_ok (t t1 : tokenizer) :
  tokenizer_ok t -> flush_numbers t = Ok t1 ->
  tokenizer_ok t1 /\ number_buffer t1 = [].
Proof.
  intros [Ht Hl]. unfold flush_numbers.
  destruct (number_buffer t) as [| c l] eqn:E.
  - intros H; inversion H; subst. repeat split; assumption.
  - destruct (list_eq_dec ascii_dec (c :: l) ["-"%char]) as [Em | Em].
    + rewrite Em. cbn. discriminate.
    + destruct (py_float (join (c :: l))) as [x | e]; cbn [rbind]; [| discriminate].
      intros H; inversion H; subst. cbn [tokens letter_buffer number_buffer].
      repeat split; [| assumption]. apply forallb_snoc; [assumption | reflexivity].
Qed.

Lemma empty_buffers_ok (t t1 : tokenizer) :
  tokenizer_ok t -> empty_buffers t = Ok t1 ->
  tokenizer_ok t1 /\ number_buffer t1 = [] /\ letter_buffer t1 = [].
Proof.
  intros Hok H. unfold empty_buffers in H.
  pose proof (flush_letters_ok t Hok) as Hok1.
  assert (Hl : letter_buffer (flush_letters t) = []).
  { unfold flush_letters. destruct (letter_buffer t) eqn:E; [exact E | reflexivity]. }
  destruct (flush_numbers_ok _ _ Hok1 H) as [Hok2 Hn].
  repeat split; try apply Hok2; try assumption.
  unfold flush_numbers in H.
  destruct (number_buffer (flush_letters t)).
  - inversion H; subst. exact Hl.
  - destruct (py_float _); cbn [rbind] in H; [| discriminate].
    inversion H; subst. exact Hl.
Qed.

Lemma emit_ok (tok : Token) (t : tokenizer) :
  tokenizer_ok t -> tokenizer_made tok = true -> tokenizer_ok (emit tok t).
Proof.
  intros [Ht Hl] Hm. split; [| exact Hl]. cbn [emit tokens].
  apply forallb_snoc; assumption.
Qed.

Lemma tokenize_char_ok (c : ascii) (t t1 : tokenizer) :
  tokenizer_ok t -> tokenize_char c t = Ok t1 -> tokenizer_ok t1.
Proof.
  intros Hok. unfold tokenize_char.
  pose proof (char_classes c) as Hc.
  apply andb_true_iff in Hc as [Hc C6]. apply andb_true_iff in Hc as [Hc C5].
  apply andb_true_iff in Hc as [Hc C4]. apply andb_true_iff in Hc as [Hc C3].
  apply andb_true_iff in Hc as [C1 C2].
  change (isdigit c || char_in c "-.") with (number_char c).
  destruct (number_char c) eqn:En.
  { intros H; inversion H; subst. exact Hok. }
  destruct (isalpha c) eqn:Ea.
  { destruct (number_buffer t) eqn:Eb; cbn [rbind].
    - intros H; inversion H; subst. destruct Hok as [Ht Hl]. split; [exact Ht |].
      cbn [letter_buffer]. apply forallb_snoc; assumption.
    - destruct (empty_buffers t) as [t2 |] eqn:E2; cbn [rbind]; [| discriminate].
      intros H; inversion H; subst.
      destruct (empty_buffers_ok _ _ Hok E2) as [[Ht Hl] _]. split; [exact Ht |].
      cbn [letter_buffer]. apply forallb_snoc; assumption. }
  destruct (in_OPS (one c)) eqn:Eo.
  { destruct (empty_buffers t) as [t2 |] eqn:E2; cbn [rbind]; [| discriminate].
    intros H; inversion H; subst. apply emit_ok; [eapply empty_buffers_ok; eauto |].
    eapply implb_elim; [eassumption | reflexivity]. }
  destruct (char_in c "([") eqn:Elp.
  { destruct (empty_buffers t) as [t2 |] eqn:E2; cbn [rbind]; [| discriminate].
    intros H; inversion H; subst. apply emit_ok; [eapply empty_buffers_ok; eauto |].
    eapply implb_elim; [eassumption | reflexivity]. }
  destruct (char_in c ")]") eqn:Erp.
  { destruct (empty_buffers t) as [t2 |] eqn:E2; cbn [rbind]; [| discriminate].
    intros H; inversion H; subst. apply emit_ok; [eapply empty_buffers_ok; eauto |].
    eapply implb_elim; [eassumption | reflexivity]. }
  destruct (Ascii.eqb c ",") eqn:Es.
  { destruct (empty_buffers t) as [t2 |] eqn:E2; cbn [rbind]; [| discriminate].
    intros H; inversion H; subst. apply emit_ok; [eapply empty_buffers_ok; eauto |].
    eapply implb_elim; [eassumption | reflexivity]. }
  destruct (isspace c); [| discriminate].
  intros H. eapply empty_buffers_ok; eauto.
Qed.

Lemma tokenize_loop_ok (cs : list ascii) :
  forall t t1, tokenizer_ok t -> tokenize_loop cs t = Ok t1 -> tokenizer_ok t1.
Proof.
  induction cs as [| c cs IH]; intros t t1 Hok; cbn [tokenize_loop].
  - intros H; inversion H; subst; exact Hok.
  - destruct (tokenize_char c t) as [t2 |] eqn:E; cbn [rbind]; [| discriminate].
    apply IH. eapply tokenize_char_ok; eauto.
Qed.

Lemma tokenize_made (text : string) (toks : list Token) :
  tokenize text = Ok toks -> forallb tokenizer_made toks = true.
Proof.
  rewrite tokenize_unfold.
  destruct (tokenize_loop (list_ascii_of_string text) no_tokens) as [t |] eqn:E;
    cbn [rbind]; [| discriminate].
  destruct (empty_buffers t) as [t1 |] eqn:E1; cbn [rbind]; [| discriminate].
  intros H; inversion H; subst.
  assert (Hok : tokenizer_ok no_tokens) by (split; reflexivity).
  pose proof (tokenize_loop_ok _ _ _ Hok E) as Hok1.
  apply (empty_buffers_ok _ _ Hok1 E1).
Qed.

Lemma name_in_In (v : string) (names : list string) :
  name_in v names = true <-> In v names.
Proof.
  unfold name_in. rewrite existsb_exists. split.
  - intros [x [Hin Heq]]. apply String.eqb_eq in Heq. now subst.
  - intros H. exists v. split; [assumption | apply String.eqb_refl].
Qed.

(** X1: every token [tokenize] returns has one of a few shapes: an
    [Operator] is one of [+ / * ^] (never [-]), a [Constant] is [e] or [pi],
    a [Function] is a non-empty word of letters other than [e] and [pi], an
    [LParen] is an opening and an [RParen] a closing round or square
    bracket, a [Separator] is a comma. *)
Theorem tokenize_token_shapes (text : string) (toks : list Token) :
  tokenize text = Ok toks ->
  forall t, In t toks ->
    match t with
    | Literal _ => True
    | Constant v => v = "e" \/ v = "pi"
    | Function v =>
        v <> "e" /\ v <> "pi" /\ v <> EmptyString
        /\ Forall (fun c => isalpha c = true) (list_ascii_of_string v)
    | Operator v => In v ["+"; "/"; "*"; "^"]
    | LParen v => v = "(" \/ v = "["
    | RParen v => v = ")" \/ v = "]"
    | Separator v => v = ","
    end.
Proof.
  intros Htok t Hin.
  pose proof (tokenize_made _ _ Htok) as Hmade.
  rewrite forallb_forall in Hmade. specialize (Hmade t Hin).
  destruct t as [x|v|v|v|v|v|v]; cbn [tokenizer_made] in Hmade.
  - exact I.
  - apply name_in_In in Hmade. simpl in Hmade. intuition congruence.
  - apply andb_true_iff in Hmade as [Hmade Hal].
    apply andb_true_iff in Hmade as [Hname Hne].
    apply negb_true_iff in Hname, Hne. apply String.eqb_neq in Hne.
    repeat split.
    + intros ->. discriminate Hname.
    + intros ->. discriminate Hname.
    + exact Hne.
    + apply Forall_forall. apply forallb_forall. exact Hal.
  - apply name_in_In in Hmade. exact Hmade.
  - apply name_in_In in Hmade. simpl in Hmade. intuition congruence.
  - apply name_in_In in Hmade. simpl in Hmade. intuition congruence.
  - apply String.eqb_eq in Hmade. exact Hmade.
Qed.

Lemma tokenize_token_shapes_example :
  tokenize "sin(pi)+0.5,[e]"
  = Ok [Function "sin"; LParen "("; Constant "pi"; RParen ")"; Operator "+";
        Literal 0.5; Separator ","; LParen "["; Constant "e"; RParen "]"]
  /\ In (Operator "+")
       [Function "sin"; LParen "("; Constant "pi"; RParen ")"; Operator "+";
        Literal 0.5; Separator ","; LParen "["; Constant "e"; RParen "]"]
  /\ In "+" ["+"; "/"; "*"; "^"].
Proof.
  split; [reflexivity |]. split; [simpl; tauto |].
  exact (tokenize_token_shapes "sin(pi)+0.5,[e]" _ eq_refl (Operator "+")
           (or_intror (or_intror (or_intror (or_intror (or_introl eq_refl)))))).
Defined.

(** X3: a character [tokenize] has no branch for makes it raise the
    [SyntaxError] that names the character, when no character before it
    raised: the buffers are not flushed first, so what they hold does not
    matter. *)
Theorem tokenize_unexpected_character (pre post : string) (c : ascii) (t : tokenizer) :
  tokenize_loop (list_ascii_of_string pre) no_tokens = Ok t ->
  recognized c = false ->
  tokenize (pre ++ String c post)
  = Raise (SyntaxError ("unexpected " ++ dquote ++ one c ++ dquote)%string).
Proof.
  intros Hpre Hc. rewrite tokenize_unfold, list_ascii_of_string_app.
  cbn [list_ascii_of_string]. rewrite tokenize_loop_app, Hpre.
  cbn [rbind tokenize_loop]. unfold tokenize_char.
  change (isdigit c || char_in c "-.") with (number_char c).
  unfold recognized in Hc.
  apply orb_false_iff in Hc as [Hc H7]. apply orb_false_iff in Hc as [Hc H6].
  apply orb_false_iff in Hc as [Hc H5]. apply orb_false_iff in Hc as [Hc H4].
  apply orb_false_iff in Hc as [Hc H3]. apply orb_false_iff in Hc as [H1 H2].
  rewrite H1, H2, H3, H4, H5, H6, H7. reflexivity.
Qed.

Lemma tokenize_unexpected_character_example :
  tokenize_loop (list_ascii_of_string "1 -") no_tokens
  = Ok {| tokens := [Literal 1]; letter_buffer := [];
          number_buffer := ["-"%char] |}
  /\ recognized "$" = false
  /\ tokenize "1 -$2"
     = Raise (SyntaxError ("unexpected " ++ dquote ++ "$" ++ dquote)%string).
Proof.
  split; [reflexivity |]. split; [reflexivity |].
  exact (tokenize_unexpected_character "1 -" "2" "$" _ eq_refl eq_refl).
Defined.

Lemma list_ascii_of_string_nil (text : string) :
  list_ascii_of_string text = [] -> text = EmptyString.
Proof. destruct text; [reflexivity | discriminate]. Qed.

Lemma tokenize_number_text (text : string) (x : float) :
  forallb number_char (list_ascii_of_string text) = true ->
  py_float text = Ok x ->
  tokenize text = Ok [Literal x].
Proof.
  intros Hchars Hfloat.
  rewrite tokenize_unfold, tokenize_loop_numbers by assumption.
  cbn [rbind no_tokens tokens letter_buffer number_buffer app].
  unfold empty_buffers, flush_letters, flush_numbers.
  cbn [tokens letter_buffer number_buffer].
  destruct (list_ascii_of_string text) as [| c cs] eqn:E.
  - apply list_ascii_of_string_nil in E. subst text. discriminate Hfloat.
  - destruct (list_eq_dec ascii_dec (c :: cs) ["-"%char]) as [Em | Em].
    + rewrite Em in E.
      assert (text = "-").
      { rewrite <- (string_of_list_ascii_of_string text), E. reflexivity. }
      subst text. discriminate Hfloat.
    + unfold join. rewrite <- E, string_of_list_ascii_of_string, Hfloat.
      reflexivity.
Qed.

(** X4: a text made of number characters (digits, [.] and [-]) that [float]
    accepts is one [Literal] token, of the value [float] gives. *)
Theorem tokenize_number (text : string) (x : float) :
  forallb number_char (list_ascii_of_string text) = true ->
  py_float text = Ok x ->
  tokenize text = Ok [Literal x].
Proof. exact (tokenize_number_text text x). Qed.

Lemma tokenize_number_example :
  forallb number_char (list_ascii_of_string "-12.5") = true
  /\ py_float "-12.5" = Ok (-12.5)%float
  /\ tokenize "-12.5" = Ok [Literal (-12.5)].
Proof.
  split; [reflexivity |]. split; [reflexivity |].
  exact (tokenize_number "-12.5" (-12.5)%float eq_refl eq_refl).
Defined.

Lemma tokenize_loop_letters (cs : list ascii) :
  forall t,
    forallb isalpha cs = true ->
    number_buffer t = [] ->
    tokenize_loop cs t
    = Ok {| tokens := tokens t;
            letter_buffer := letter_buffer t ++ cs;
            number_buffer := [] |}.
Proof.
  induction cs as [| c cs IH]; intros t H Hn.
  - cbn. rewrite app_nil_r. destruct t; cbn in *. now subst.
  - cbn [forallb] in H. apply andb_true_iff in H as [Hc Hcs].
    cbn [tokenize_loop]. unfold tokenize_char.
    pose proof (char_classes c) as Hcl.
    repeat (apply andb_true_iff in Hcl as [Hcl _]).
    apply (fun h => implb_elim _ _ h Hc) in Hcl. apply negb_true_iff in Hcl.
    change (isdigit c || char_in c "-.") with (number_char c).
    rewrite Hcl, Hc, Hn. cbn [rbind].
    rewrite IH by (try assumption; reflexivity).
    cbn [tokens letter_buffer number_buffer].
    rewrite <- app_assoc. reflexivity.
Qed.

(** X5: a non-empty word of letters is one token: the [Constant] of that
    name when the word is [e] or [pi], the [Function] of that name
    otherwise. *)
Theorem tokenize_word (word : string) :
  word <> EmptyString ->
  forallb isalpha (list_ascii_of_string word) = true ->
  tokenize word
  = Ok [if String.eqb word "e" || String.eqb word "pi"
        then Constant word else Function word].
Proof.
  intros Hne Hal.
  rewrite tokenize_unfold, tokenize_loop_letters by (try assumption; reflexivity).
  cbn [rbind no_tokens tokens letter_buffer number_buffer app].
  unfold empty_buffers, flush_letters. cbn [tokens letter_buffer number_buffer].
  destruct (list_ascii_of_string word) as [| c cs] eqn:E.
  - apply list_ascii_of_string_nil in E. contradiction.
  - unfold join. rewrite <- E, string_of_list_ascii_of_string.
    destruct (String.eqb word "e" || String.eqb word "pi"); reflexivity.
Qed.

Lemma tokenize_word_example :
  "sqrt" <> EmptyString
  /\ forallb isalpha (list_ascii_of_string "sqrt") = true
  /\ tokenize "sqrt" = Ok [Function "sqrt"].
Proof.
  split; [discriminate |]. split; [reflexivity |].
  exact (tokenize_word "sqrt" (fun H => eq_ind "sqrt"
           (fun s => match s with EmptyString => False | _ => True end)
           I EmptyString H) eq_refl).
Defined.

(** ** A minus sign inside a number *)

Lemma span_digits_spec (s : list ascii) :
  forall ds rest,
    span_digits s = (ds, rest) ->
    s = ds ++ rest /\ forallb is_ascii_digit ds = true.
Proof.
  induction s as [| c s IH]; intros ds rest; cbn [span_digits].
  - intros H; inversion H; subst. split; reflexivity.
  - destruct (is_ascii_digit c) eqn:Ec.
    + destruct (span_digits s) as [ds1 rest1]. intros H; inversion H; subst.
      destruct (IH ds1 rest eq_refl) as [-> Hd]. split; [reflexivity |].
      cbn [forallb]. now rewrite Ec, Hd.
    + intros H; inversion H; subst. split; reflexivity.
Qed.

Lemma digits_no_minus (ds : list ascii) :
  forallb is_ascii_digit ds = true ->
  forallb (fun c => negb (Ascii.eqb c "-")) ds = true.
Proof.
  induction ds as [| c ds IH]; cbn [forallb]; [reflexivity |].
  intros H. apply andb_true_iff in H as [Hc Hds]. rewrite IH by assumption.
  pose proof (char_classes c) as Hcl. apply andb_true_iff in Hcl as [_ Hcl].
  apply (fun h => implb_elim _ _ h Hc) in Hcl.
  apply andb_true_iff in Hcl as [-> _]. reflexivity.
Qed.

Lemma parse_decimal_sign (s : list ascii) :
  exists neg s1,
    (s = "-"%char :: s1 \/ s = s1) /\ parse_decimal s = parse_unsigned neg s1.
Proof.
  destruct s as [| c s].
  - exists false, []. split; [now right | reflexivity].
  - destruct c as [[] [] [] [] [] [] [] []];
      first [ exists true, s; split; [left; reflexivity | reflexivity]
            | eexists false, _; split; [right; reflexivity | reflexivity] ].
Qed.

Lemma parse_unsigned_no_minus (neg : bool) (s1 : list ascii) (r : bool * Z * Z) :
  parse_unsigned neg s1 = Some r ->
  forallb (fun c => negb (Ascii.eqb c "-")) s1 = true.
Proof.
  unfold parse_unsigned.
  destruct (span_digits s1) as [ip s2] eqn:E1.
  apply span_digits_spec in E1 as [-> Hip].
  apply digits_no_minus in Hip.
  destruct s2 as [| c s3].
  - intros _. rewrite app_nil_r. exact Hip.
  - destruct c as [[] [] [] [] [] [] [] []]; try discriminate.
    destruct (span_digits s3) as [fp s4] eqn:E2.
    apply span_digits_spec in E2 as [-> Hfp].
    apply digits_no_minus in Hfp.
    destruct s4; [| discriminate].
    intros _. rewrite app_nil_r, forallb_app, Hip. cbn [forallb]. now rewrite Hfp.
Qed.

Lemma parse_decimal_inner_minus (c : ascii) (a b : list ascii) :
  parse_decimal (c :: a ++ "-"%char :: b) = None.
Proof.
  destruct (parse_decimal (c :: a ++ "-"%char :: b)) as [r |] eqn:E; [| reflexivity].
  exfalso.
  destruct (parse_decimal_sign (c :: a ++ "-"%char :: b)) as (neg & s1 & Hs & Hp).
  rewrite Hp in E. apply parse_unsigned_no_minus in E.
  assert (Ht : forallb (fun c => negb (Ascii.eqb c "-")) (a ++ "-"%char :: b) = true).
  { destruct Hs as [Hs | Hs].
    - inversion Hs; subst. exact E.
    - subst s1. cbn [forallb] in E. apply andb_true_iff in E as [_ E]. exact E. }
  rewrite forallb_app in Ht. apply andb_true_iff in Ht as [_ Ht].
  discriminate Ht.
Qed.

(** X6: a [-] that follows a number character without a space goes into
    the same number buffer: when the text is number characters only, such
    as ["3-2"], the buffer is not a float and [tokenize] raises
    [ValueError]. *)
Theorem tokenize_inner_minus (c : ascii) (a b : string) :
  forallb number_char (list_ascii_of_string (String c (a ++ String "-" b))) = true ->
  tokenize (String c (a ++ String "-" b)) = Raise ValueError.
Proof.
  intros Hchars.
  rewrite tokenize_unfold, tokenize_loop_numbers by assumption.
  cbn [rbind no_tokens tokens letter_buffer number_buffer app].
  unfold empty_buffers, flush_letters, flush_numbers.
  cbn [tokens letter_buffer number_buffer list_ascii_of_string].
  unfold py_float, join. rewrite list_ascii_of_string_of_list_ascii.
  rewrite list_ascii_of_string_app. cbn [list_ascii_of_string].
  rewrite parse_decimal_inner_minus. reflexivity.
Qed.

Lemma tokenize_inner_minus_example :
  forallb number_char (list_ascii_of_string "3-2") = true
  /\ tokenize "3-2" = Raise ValueError.
Proof.
  split; [reflexivity |].
  exact (tokenize_inner_minus "3" EmptyString "2" eq_refl).
Defined.

(** * More on the reorderer *)

(** X7: a sequence of numbers comes back as it is. *)
Theorem shunting_yard_operands (operands : list Token) :
  forallb is_operand operands = true ->
  shunting_yard operands = Ok operands.
Proof.
  intros H. unfold shunting_yard.
  rewrite shunt_all_operands by assumption. reflexivity.
Qed.

Lemma shunting_yard_operands_example :
  forallb is_operand [Literal 1; Constant "pi"; Literal 2] = true
  /\ shunting_yard [Literal 1; Constant "pi"; Literal 2]
     = Ok [Literal 1; Constant "pi"; Literal 2].
Proof.
  split; [reflexivity |].
  exact (shunting_yard_operands [Literal 1; Constant "pi"; Literal 2] eq_refl).
Defined.

(** ** The output holds the tokens of the input *)

Lemma perm_snoc (t : Token) (l1 l2 : list Token) :
  Permutation (l1 ++ l2 ++ [t]) (t :: l1 ++ l2).
Proof.
  rewrite app_assoc. apply Permutation_sym, Permutation_cons_append.
Qed.

Lemma filter_not_LParen_keep (t : Token) (l : list Token) :
  is_LParen t = false ->
  filter not_LParen (t :: l) = t :: filter not_LParen l.
Proof. intros H. cbn [filter]. unfold not_LParen at 1. now rewrite H. Qed.

Lemma filter_not_LParen_drop (t : Token) (l : list Token) :
  is_LParen t = true ->
  filter not_LParen (t :: l) = filter not_LParen l.
Proof. intros H. cbn [filter]. unfold not_LParen at 1. now rewrite H. Qed.

Lemma pop_until_LParen_perm (stack : list Token) :
  forall output s1 o1,
    pop_until_LParen stack output = (s1, o1) ->
    Permutation (filter not_LParen s1 ++ o1) (filter not_LParen stack ++ output).
Proof.
  induction stack as [| t rest IH]; intros output s1 o1; cbn [pop_until_LParen].
  - intros H; inversion H; subst. apply Permutation_refl.
  - destruct (is_LParen t) eqn:E.
    + intros H; inversion H; subst. apply Permutation_refl.
    + intros H. apply IH in H. rewrite filter_not_LParen_keep by assumption.
      cbn [app]. eapply Permutation_trans; [exact H | apply perm_snoc].
Qed.

Lemma pop_operators_perm (token : Token) (stack : list Token) :
  forall output s1 o1,
    pop_operators token stack output = Ok (s1, o1) ->
    Permutation (filter not_LParen s1 ++ o1) (filter not_LParen stack ++ output).
Proof.
  induction stack as [| t rest IH]; intros output s1 o1; cbn [pop_operators].
  - destruct (operator_condition token []) as [[|] |]; cbn [rbind]; try discriminate.
    intros H; inversion H; subst. apply Permutation_refl.
  - destruct (operator_condition token (t :: rest)) as [[|] |] eqn:Ec;
      cbn [rbind]; try discriminate.
    + apply operator_condition_true in Ec as (t' & rest' & Heq & Hop).
      inversion Heq; subst t' rest'.
      intros H. apply IH in H.
      rewrite filter_not_LParen_keep by (destruct t; try discriminate; reflexivity).
      cbn [app]. eapply Permutation_trans; [exact H | apply perm_snoc].
    + intros H; inversion H; subst. apply Permutation_refl.
Qed.

Lemma shunt_perm (token : Token) (stack output s1 o1 : list Token) :
  shunt token (stack, output) = Ok (s1, o1) ->
  Permutation (filter not_LParen s1 ++ o1)
    (filter postfix_kind [token] ++ filter not_LParen stack ++ output).
Proof.
  destruct token as [x|v|v|v|v|v|v]; cbn [shunt filter postfix_kind app].
  - intros H; inversion H; subst. apply perm_snoc.
  - intros H; inversion H; subst. apply perm_snoc.
  - intros H; inversion H; subst. apply Permutation_refl.
  - destruct (pop_operators (Operator v) stack output) as [[s2 o2] |] eqn:Ep;
      cbn [rbind]; try discriminate.
    intros H; inversion H; subst.
    rewrite filter_not_LParen_keep by reflexivity. cbn [app].
    apply perm_skip. eapply pop_operators_perm; eassumption.
  - intros H; inversion H; subst.
    rewrite filter_not_LParen_drop by reflexivity. apply Permutation_refl.
  - destruct (pop_until_LParen stack output) as [s2 o2] eqn:Ep.
    apply pop_until_LParen_perm in Ep.
    destruct s2 as [| t s3]; cbn [top rbind]; try discriminate.
    destruct (is_LParen t) eqn:Et; try discriminate.
    rewrite filter_not_LParen_drop in Ep by assumption.
    cbn [tl]. destruct s3 as [| f s4].
    + intros H; inversion H; subst. exact Ep.
    + destruct (is_Function f) eqn:Ef; intros H; inversion H; subst; [| exact Ep].
      rewrite filter_not_LParen_keep in Ep
        by (destruct f; try discriminate; reflexivity).
      eapply Permutation_trans; [| exact Ep].
      cbn [app]. apply perm_snoc.
  - destruct (pop_until_LParen stack output) as [s2 o2] eqn:Ep.
    apply pop_until_LParen_perm in Ep.
    destruct s2; try discriminate. intros H; inversion H; subst. exact Ep.
Qed.

Lemma shunt_all_perm (expr : list Token) :
  forall stack output s1 o1,
    shunt_all expr (stack, output) = Ok (s1, o1) ->
    Permutation (filter not_LParen s1 ++ o1)
      (filter postfix_kind expr ++ filter not_LParen stack ++ output).
Proof.
  induction expr as [| token rest IH]; intros stack output s1 o1; cbn [shunt_all].
  - intros H; inversion H; subst. apply Permutation_refl.
  - destruct (shunt token (stack, output)) as [[s2 o2] |] eqn:E; cbn [rbind];
      try discriminate.
    intros H. apply IH in H. apply shunt_perm in E.
    eapply Permutation_trans; [exact H |].
    change (token :: rest) with ([token] ++ rest). rewrite filter_app.
    eapply Permutation_trans; [apply Permutation_app_head; exact E |].
    rewrite !app_assoc. apply Permutation_app_tail, Permutation_app_tail.
    apply Permutation_app_comm.
Qed.

Lemma pop_remaining_perm (stack : list Token) :
  forall output o1,
    pop_remaining stack output = Ok o1 ->
    Permutation o1 (filter not_LParen stack ++ output).
Proof.
  induction stack as [| t rest IH]; intros output o1; cbn [pop_remaining].
  - intros H; inversion H; subst. apply Permutation_refl.
  - destruct (is_LParen t) eqn:El; [discriminate |].
    destruct (is_RParen t); cbn [orb]; [discriminate |].
    intros H. apply IH in H. rewrite filter_not_LParen_keep by assumption.
    cbn [app]. eapply Permutation_trans; [exact H | apply perm_snoc].
Qed.

Lemma filter_operand_snoc (output : list Token) (t : Token) :
  is_operand t = false ->
  filter is_operand (output ++ [t]) = filter is_operand output.
Proof.
  intros H. rewrite filter_app. cbn [filter]. rewrite H. apply app_nil_r.
Qed.

Lemma stack_kind_not_operand (t : Token) :
  stack_kind t = true -> is_operand t = false.
Proof. destruct t; simpl; congruence. Qed.

Lemma pop_until_LParen_operands (stack : list Token) :
  forall output s1 o1,
    forallb stack_kind stack = true ->
    pop_until_LParen stack output = (s1, o1) ->
    filter is_operand o1 = filter is_operand output.
Proof.
  induction stack as [| t rest IH]; intros output s1 o1 Hs; cbn [pop_until_LParen].
  - intros H; inversion H; subst. reflexivity.
  - cbn [forallb] in Hs. apply andb_true_iff in Hs as [Ht Hrest].
    destruct (is_LParen t).
    + intros H; inversion H; subst. reflexivity.
    + intros H. apply IH in H; [| assumption].
      rewrite H. apply filter_operand_snoc, stack_kind_not_operand, Ht.
Qed.

Lemma pop_operators_operands (token : Token) (stack : list Token) :
  forall output s1 o1,
    forallb stack_kind stack = true ->
    pop_operators token stack output = Ok (s1, o1) ->
    filter is_operand o1 = filter is_operand output.
Proof.
  induction stack as [| t rest IH]; intros output s1 o1 Hs; cbn [pop_operators].
  - destruct (operator_condition token []) as [[|] |]; cbn [rbind]; try discriminate.
    intros H; inversion H; subst. reflexivity.
  - cbn [forallb] in Hs. apply andb_true_iff in Hs as [Ht Hrest].
    destruct (operator_condition token (t :: rest)) as [[|] |];
      cbn [rbind]; try discriminate.
    + intros H. apply IH in H; [| assumption].
      rewrite H. apply filter_operand_snoc, stack_kind_not_operand, Ht.
    + intros H; inversion H; subst. reflexivity.
Qed.

Lemma shunt_operands (token : Token) (stack output s1 o1 : list Token) :
  forallb stack_kind stack = true ->
  shunt token (stack, output) = Ok (s1, o1) ->
  filter is_operand o1 = filter is_operand output ++ filter is_operand [token].
Proof.
  intros Hs. destruct token as [x|v|v|v|v|v|v]; cbn [shunt filter is_operand].
  - intros H; inversion H; subst. apply filter_app.
  - intros H; inversion H; subst. apply filter_app.
  - intros H; inversion H; subst. now rewrite app_nil_r.
  - destruct (pop_operators (Operator v) stack output) as [[s2 o2] |] eqn:Ep;
      cbn [rbind]; try discriminate.
    intros H; inversion H; subst. rewrite app_nil_r.
    eapply pop_operators_operands; eassumption.
  - intros H; inversion H; subst. now rewrite app_nil_r.
  - destruct (pop_until_LParen stack output) as [s2 o2] eqn:Ep.
    pose proof (pop_until_LParen_kinds stack output s2 o2 Hs) as Hk.
    pose proof (pop_until_LParen_operands _ _ _ _ Hs Ep) as Ho. rewrite app_nil_r.
    destruct s2 as [| t s3]; cbn [top rbind]; try discriminate.
    destruct (is_LParen t); try discriminate. cbn [tl].
    destruct s3 as [| f s4].
    + intros H; inversion H; subst. exact Ho.
    + destruct (is_Function f) eqn:Ef; intros H; inversion H; subst; [| exact Ho].
      rewrite filter_operand_snoc; [exact Ho |].
      destruct f; try discriminate; reflexivity.
  - destruct (pop_until_LParen stack output) as [s2 o2] eqn:Ep.
    pose proof (pop_until_LParen_operands _ _ _ _ Hs Ep) as Ho. rewrite app_nil_r.
    destruct s2; try discriminate. intros H; inversion H; subst. exact Ho.
Qed.

Lemma shunt_all_operand_order (expr : list Token) :
  forall stack output s1 o1,
    forallb stack_kind stack = true ->
    forallb postfix_kind output = true ->
    shunt_all expr (stack, output) = Ok (s1, o1) ->
    filter is_operand o1 = filter is_operand output ++ filter is_operand expr.
Proof.
  induction expr as [| token rest IH]; intros stack output s1 o1 Hs Ho;
    cbn [shunt_all].
  - intros H; inversion H; subst. now rewrite app_nil_r.
  - destruct (shunt token (stack, output)) as [[s2 o2] |] eqn:E; cbn [rbind];
      try discriminate.
    intros H.
    destruct (shunt_kinds _ _ _ _ _ Hs Ho E) as [Hs2 Ho2].
    apply IH in H; try assumption.
    rewrite H, (shunt_operands _ _ _ _ _ Hs E), <- app_assoc.
    change (token :: rest) with ([token] ++ rest). now rewrite filter_app.
Qed.

Lemma pop_remaining_operands (stack : list Token) :
  forall output o1,
    forallb stack_kind stack = true ->
    pop_remaining stack output = Ok o1 ->
    filter is_operand o1 = filter is_operand output.
Proof.
  induction stack as [| t rest IH]; intros output o1 Hs; cbn [pop_remaining].
  - intros H; inversion H; subst. reflexivity.
  - cbn [forallb] in Hs. apply andb_true_iff in Hs as [Ht Hrest].
    destruct (is_LParen t || is_RParen t); [discriminate |].
    intros H. apply IH in H; [| assumption].
    rewrite H. apply filter_operand_snoc, stack_kind_not_operand, Ht.
Qed.

(** X8: when [shunting_yard] returns, its output is a rearrangement of
    the [Literal], [Constant], [Operator] and [Function] tokens of its
    input, none lost and none added, and the numbers are in the order they
    had in the input. *)
Theorem shunting_yard_rearranges (expr output : list Token) :
  shunting_yard expr = Ok output ->
  Permutation output (filter postfix_kind expr)
  /\ filter is_operand output = filter is_operand expr.
Proof.
  unfold shunting_yard. intros H.
  destruct (shunt_all expr ([], [])) as [[s1 o1] |] eqn:E; cbn [rbind fst snd] in H;
    try discriminate.
  split.
  - apply pop_remaining_perm in H. apply shunt_all_perm in E.
    cbn [filter app] in E. rewrite app_nil_r in E.
    eapply Permutation_trans; eassumption.
  - destruct (shunt_all_kinds expr [] [] s1 o1 eq_refl eq_refl E) as [Hs Ho].
    rewrite (pop_remaining_operands _ _ _ Hs H).
    apply (shunt_all_operand_order expr [] [] s1 o1 eq_refl eq_refl E).
Qed.

Lemma shunting_yard_rearranges_example :
  shunting_yard
    [Function "max"; LParen "("; Literal 1; Separator ","; Literal 2; RParen ")";
     Operator "+"; Literal 3]
  = Ok [Literal 1; Literal 2; Function "max"; Literal 3; Operator "+"]
  /\ Permutation
       [Literal 1; Literal 2; Function "max"; Literal 3; Operator "+"]
       [Function "max"; Literal 1; Literal 2; Operator "+"; Literal 3].
Proof.
  split; [reflexivity |].
  exact (proj1 (shunting_yard_rearranges
                  [Function "max"; LParen "("; Literal 1; Separator ",";
                   Literal 2; RParen ")"; Operator "+"; Literal 3]
                  [Literal 1; Literal 2; Function "max"; Literal 3; Operator "+"]
                  eq_refl)).
Defined.

(** ** Brackets *)

Lemma filter_LParen_operator (t : Token) (l : list Token) :
  is_LParen t = false -> filter is_LParen (t :: l) = filter is_LParen l.
Proof. intros H. cbn [filter]. now rewrite H. Qed.

Lemma pop_until_LParen_opens (stack : list Token) :
  forall output s1 o1,
    pop_until_LParen stack output = (s1, o1) ->
    filter is_LParen s1 = filter is_LParen stack.
Proof.
  induction stack as [| t rest IH]; intros output s1 o1; cbn [pop_until_LParen].
  - intros H; inversion H; subst. reflexivity.
  - destruct (is_LParen t) eqn:E.
    + intros H; inversion H; subst. reflexivity.
    + intros H. apply IH in H. now rewrite filter_LParen_operator.
Qed.

Lemma pop_operators_opens (token : Token) (stack : list Token) :
  forall output s1 o1,
    pop_operators token stack output = Ok (s1, o1) ->
    filter is_LParen s1 = filter is_LParen stack.
Proof.
  induction stack as [| t rest IH]; intros output s1 o1; cbn [pop_operators].
  - destruct (operator_condition token []) as [[|] |]; cbn [rbind]; try discriminate.
    intros H; inversion H; subst. reflexivity.
  - destruct (operator_condition token (t :: rest)) as [[|] |] eqn:Ec;
      cbn [rbind]; try discriminate.
    + apply operator_condition_true in Ec as (t' & rest' & Heq & Hop).
      inversion Heq; subst t' rest'.
      intros H. apply IH in H.
      rewrite filter_LParen_operator by (destruct t; try discriminate; reflexivity).
      exact H.
    + intros H; inversion H; subst. reflexivity.
Qed.

(** Each token moves the count of opening brackets on the stack by what it
    opens less what it closes. *)
Lemma shunt_opens (token : Token) (stack output s1 o1 : list Token) :
  shunt token (stack, output) = Ok (s1, o1) ->
  (List.length (filter is_LParen s1) + List.length (filter is_RParen [token])
   = List.length (filter is_LParen stack) + List.length (filter is_LParen [token]))%nat.
Proof.
  destruct token as [x|v|v|v|v|v|v]; cbn [shunt filter is_LParen is_RParen List.length].
  - intros H; inversion H; subst. reflexivity.
  - intros H; inversion H; subst. reflexivity.
  - intros H; inversion H; subst. reflexivity.
  - destruct (pop_operators (Operator v) stack output) as [[s2 o2] |] eqn:Ep;
      cbn [rbind]; try discriminate.
    intros H; inversion H; subst. apply pop_operators_opens in Ep.
    cbn [filter is_LParen]. now rewrite Ep.
  - intros H; inversion H; subst. cbn [filter is_LParen List.length]. lia.
  - destruct (pop_until_LParen stack output) as [s2 o2] eqn:Ep.
    apply pop_until_LParen_opens in Ep. rewrite <- Ep.
    destruct s2 as [| t s3]; cbn [top rbind]; try discriminate.
    destruct (is_LParen t) eqn:Et; try discriminate.
    cbn [filter]. rewrite Et. cbn [tl List.length].
    destruct s3 as [| f s4].
    + intros H; inversion H; subst. cbn. lia.
    + destruct (is_Function f) eqn:Ef; intros H; inversion H; subst; [| lia].
      rewrite (filter_LParen_operator f)
        by (destruct f; try discriminate; reflexivity).
      lia.
  - destruct (pop_until_LParen stack output) as [s2 o2] eqn:Ep.
    apply pop_until_LParen_opens in Ep.
    destruct s2; try discriminate. intros H; inversion H; subst.
    rewrite Ep. reflexivity.
Qed.

Lemma shunt_all_opens (expr : list Token) :
  forall stack output s1 o1,
    shunt_all expr (stack, output) = Ok (s1, o1) ->
    (List.length (filter is_LParen s1) + List.length (filter is_RParen expr)
     = List.length (filter is_LParen stack) + List.length (filter is_LParen expr))%nat.
Proof.
  induction expr as [| token rest IH]; intros stack output s1 o1; cbn [shunt_all].
  - intros H; inversion H; subst. reflexivity.
  - destruct (shunt token (stack, output)) as [[s2 o2] |] eqn:E; cbn [rbind];
      try discriminate.
    intros H. apply IH in H. apply shunt_opens in E.
    change (token :: rest) with ([token] ++ rest).
    rewrite !filter_app, !length_app. lia.
Qed.

Lemma pop_remaining_opens (stack : list Token) :
  forall output o1,
    pop_remaining stack output = Ok o1 -> filter is_LParen stack = [].
Proof.
  induction stack as [| t rest IH]; intros output o1; cbn [pop_remaining].
  - reflexivity.
  - destruct (is_LParen t) eqn:El; [discriminate |].
    destruct (is_RParen t); cbn [orb]; [discriminate |].
    intros H. apply IH in H. now rewrite filter_LParen_operator.
Qed.

Lemma shunt_all_prefix (pre post : list Token) (st st2 : list Token * list Token) :
  shunt_all (pre ++ post) st = Ok st2 ->
  exists st1, shunt_all pre st = Ok st1.
Proof.
  rewrite shunt_all_app.
  destruct (shunt_all pre st) as [st1 |]; [eauto | discriminate].
Qed.

(** X9: when [shunting_yard] returns, the brackets of its input are
    balanced: there are as many closing as opening brackets, and no part of
    the input read from its start closes more brackets than it opens. *)
Theorem shunting_yard_balanced (expr output : list Token) :
  shunting_yard expr = Ok output ->
  List.length (filter is_RParen expr) = List.length (filter is_LParen expr)
  /\ (forall pre post, expr = pre ++ post ->
        (List.length (filter is_RParen pre) <= List.length (filter is_LParen pre))%nat).
Proof.
  unfold shunting_yard. intros H.
  destruct (shunt_all expr ([], [])) as [[s1 o1] |] eqn:E; cbn [rbind fst snd] in H;
    try discriminate.
  split.
  - apply pop_remaining_opens in H. apply shunt_all_opens in E.
    rewrite H in E. cbn in E. lia.
  - intros pre post ->.
    destruct (shunt_all_prefix _ _ _ _ E) as [[s2 o2] E2].
    apply shunt_all_opens in E2. cbn in E2. lia.
Qed.

Lemma shunting_yard_balanced_example :
  shunting_yard [LParen "("; Literal 1; RParen "]"] = Ok [Literal 1]
  /\ List.length (filter is_RParen [LParen "("; Literal 1; RParen "]"])
     = List.length (filter is_LParen [LParen "("; Literal 1; RParen "]"]).
Proof.
  split; [reflexivity |].
  exact (proj1 (shunting_yard_balanced
                  [LParen "("; Literal 1; RParen "]"] [Literal 1] eq_refl)).
Defined.

Lemma no_opens_existsb (stack : list Token) :
  filter is_LParen stack = [] -> existsb is_LParen stack = false.
Proof.
  induction stack as [| t rest IH]; cbn [filter existsb]; [reflexivity |].
  destruct (is_LParen t); [discriminate | exact IH].
Qed.

(** X10: a [Separator] that no open bracket encloses makes
    [shunting_yard] raise the mismatched-parentheses [SyntaxError], when the
    tokens before it are processed without error. *)
Theorem separator_outside_brackets (pre post : list Token) (v : string)
  (st : list Token * list Token) :
  shunt_all pre ([], []) = Ok st ->
  List.length (filter is_RParen pre) = List.length (filter is_LParen pre) ->
  shunting_yard (pre ++ Separator v :: post)
  = Raise (SyntaxError "mismatched parentheses").
Proof.
  intros Hpre Hbal. destruct st as [stack output].
  unfold shunting_yard. rewrite shunt_all_app, Hpre. cbn [rbind shunt_all shunt].
  pose proof (shunt_all_opens _ _ _ _ _ Hpre) as Ho. cbn in Ho.
  assert (Hn : existsb is_LParen stack = false).
  { apply no_opens_existsb. destruct (filter is_LParen stack); [reflexivity |].
    cbn in Ho. lia. }
  pose proof (pop_until_LParen_none stack output Hn) as Hnone.
  destruct (pop_until_LParen stack output) as [s2 o2]. cbn in Hnone. subst s2.
  reflexivity.
Qed.

Lemma separator_outside_brackets_example :
  shunt_all [Literal 1] ([], []) = Ok ([], [Literal 1])
  /\ shunting_yard ([Literal 1] ++ Separator "," :: [Literal 2])
     = Raise (SyntaxError "mismatched parentheses").
Proof.
  split; [reflexivity |].
  exact (separator_outside_brackets [Literal 1] [Literal 2] "," _ eq_refl eq_refl).
Defined.

(** ** Expressions without brackets *)

Lemma left_operator_lookup (v : string) :
  left_operator v = true ->
  exists o, lookup v OPS = Some o /\ assoc o = L.
Proof.
  unfold left_operator. destruct (lookup v OPS) as [o |]; [| discriminate].
  destruct (assoc o) eqn:E; [eauto | discriminate].
Qed.

Lemma left_operator_names (v : string) :
  left_operator v = true -> v = "+" \/ v = "-" \/ v = "/" \/ v = "*".
Proof.
  unfold left_operator, OPS. cbn [lookup].
  destruct (String.eqb_spec v "+"); [auto |].
  destruct (String.eqb_spec v "-"); [auto |].
  destruct (String.eqb_spec v "/"); [auto |].
  destruct (String.eqb_spec v "*"); [auto |].
  destruct (String.eqb_spec v "^"); discriminate.
Qed.

(** The loop condition of a left-associative operator never raises on a
    stack of functions and left-associative operators. *)
Lemma operator_condition_flat (v : string) (stack : list Token) :
  left_operator v = true ->
  forallb flat_stack stack = true ->
  exists c, operator_condition (Operator v) stack = Ok c.
Proof.
  intros Hv Hs. destruct (left_operator_lookup v Hv) as ([p a] & Ho & Ha).
  cbn [assoc] in Ha. subst a.
  unfold operator_condition. cbn [OPS_of]. rewrite Ho.
  destruct stack as [| t rest].
  - cbn [rbind assoc]. eauto.
  - cbn [forallb] in Hs. apply andb_true_iff in Hs as [Ht _].
    destruct t as [x|w|w|w|w|w|w]; try discriminate Ht;
      cbn [is_Operator rbind assoc].
    + eauto.
    + cbn [flat_stack] in Ht.
      destruct (left_operator_lookup w Ht) as (o1 & Ho1 & _).
      cbn [top rbind OPS_of]. rewrite Ho1. cbn [rbind prec].
      destruct (p <=? prec o1); eauto.
Qed.

Lemma pop_operators_flat (v : string) (stack : list Token) :
  forall output,
    left_operator v = true ->
    forallb flat_stack stack = true ->
    exists s1 o1,
      pop_operators (Operator v) stack output = Ok (s1, o1)
      /\ forallb flat_stack s1 = true.
Proof.
  induction stack as [| t rest IH]; intros output Hv Hs.
  - destruct (operator_condition_flat v [] Hv Hs) as [c Hc].
    cbn [pop_operators]. rewrite Hc. cbn [rbind].
    destruct c; [| eauto].
    apply operator_condition_true in Hc as (? & ? & Heq & _). discriminate Heq.
  - destruct (operator_condition_flat v (t :: rest) Hv Hs) as [c Hc].
    cbn [pop_operators]. rewrite Hc. cbn [rbind].
    destruct c; [| eauto].
    cbn [forallb] in Hs. apply andb_true_iff in Hs as [_ Hrest].
    apply IH; assumption.
Qed.

Lemma shunt_flat (token : Token) (stack output : list Token) :
  flat_token token = true ->
  forallb flat_stack stack = true ->
  exists s1 o1,
    shunt token (stack, output) = Ok (s1, o1) /\ forallb flat_stack s1 = true.
Proof.
  intros Ht Hs. destruct token as [x|v|v|v|v|v|v]; try discriminate Ht; cbn [shunt].
  - eauto.
  - eauto.
  - exists (Function v :: stack), output. split; [reflexivity |].
    cbn [forallb flat_stack]. exact Hs.
  - cbn [flat_token] in Ht.
    destruct (pop_operators_flat v stack output Ht Hs) as (s1 & o1 & Hp & Hs1).
    rewrite Hp. cbn [rbind]. exists (Operator v :: s1), o1.
    split; [reflexivity |]. cbn [forallb flat_stack]. now rewrite Ht, Hs1.
Qed.

Lemma shunt_all_flat (expr : list Token) :
  forall stack output,
    forallb flat_token expr = true ->
    forallb flat_stack stack = true ->
    exists s1 o1,
      shunt_all expr (stack, output) = Ok (s1, o1)
      /\ forallb flat_stack s1 = true.
Proof.
  induction expr as [| token rest IH]; intros stack output He Hs.
  - cbn. eauto.
  - cbn [forallb] in He. apply andb_true_iff in He as [Ht Hrest].
    destruct (shunt_flat token stack output Ht Hs) as (s2 & o2 & E & Hs2).
    cbn [shunt_all]. rewrite E. cbn [rbind]. apply IH; assumption.
Qed.

Lemma pop_remaining_flat (stack : list Token) :
  forall output,
    forallb flat_stack stack = true ->
    exists o1, pop_remaining stack output = Ok o1.
Proof.
  induction stack as [| t rest IH]; intros output Hs; cbn [pop_remaining].
  - eauto.
  - cbn [forallb] in Hs. apply andb_true_iff in Hs as [Ht Hrest].
    replace (is_LParen t || is_RParen t) with false
      by (destruct t; try discriminate Ht; reflexivity).
    apply IH; assumption.
Qed.

(** X11: on a sequence of numbers, functions and the operators [+ - / *],
    with no bracket, separator or [^], [shunting_yard] raises nothing: it
    returns a postfix sequence. *)
Theorem shunting_yard_flat (expr : list Token) :
  forallb flat_token expr = true ->
  exists output, shunting_yard expr = Ok output.
Proof.
  intros He. unfold shunting_yard.
  destruct (shunt_all_flat expr [] [] He eq_refl) as (s1 & o1 & E & Hs1).
  rewrite E. cbn [rbind fst snd]. apply pop_remaining_flat; assumption.
Qed.

Lemma shunting_yard_flat_example :
  forallb flat_token
    [Literal 1; Operator "-"; Literal 2; Operator "*"; Function "sin"; Constant "pi"]
  = true
  /\ exists output,
      shunting_yard
        [Literal 1; Operator "-"; Literal 2; Operator "*"; Function "sin";
         Constant "pi"]
      = Ok output.
Proof.
  split; [reflexivity |].
  exact (shunting_yard_flat
           [Literal 1; Operator "-"; Literal 2; Operator "*"; Function "sin";
            Constant "pi"] eq_refl).
Defined.

(** X12: two operators in a row. For numbers [a], [b], [c] and operators
    [v1], [v2] among [+ - / *], the sequence a v1 b v2 c is reordered to
    a b v1 c v2 when [v2] does not bind tighter than [v1] (the first
    operation is done first), and to a b c v2 v1 when it does. With [^] as
    the second operator it is reordered to a b c ^ v1. *)
Theorem shunting_yard_two_operators (a b c : Token) (v1 v2 : string) :
  is_operand a = true -> is_operand b = true -> is_operand c = true ->
  left_operator v1 = true ->
  (left_operator v2 = true ->
   shunting_yard [a; Operator v1; b; Operator v2; c]
   = Ok (if prec_of v2 <=? prec_of v1
         then [a; b; Operator v1; c; Operator v2]
         else [a; b; c; Operator v2; Operator v1]))
  /\ shunting_yard [a; Operator v1; b; Operator "^"; c]
     = Ok [a; b; c; Operator "^"; Operator v1].
Proof.
  intros Ha Hb Hc H1.
  apply left_operator_names in H1.
  split.
  - intros H2. apply left_operator_names in H2.
    destruct H1 as [-> | [-> | [-> | ->]]];
      destruct H2 as [-> | [-> | [-> | ->]]];
      destruct a; try discriminate Ha;
      destruct b; try discriminate Hb;
      destruct c; try discriminate Hc;
      reflexivity.
  - destruct H1 as [-> | [-> | [-> | ->]]];
      destruct a; try discriminate Ha;
      destruct b; try discriminate Hb;
      destruct c; try discriminate Hc;
      reflexivity.
Qed.

Lemma shunting_yard_two_operators_example :
  shunting_yard [Literal 1; Operator "-"; Literal 2; Operator "+"; Literal 3]
  = Ok [Literal 1; Literal 2; Operator "-"; Literal 3; Operator "+"].
Proof.
  exact (proj1 (shunting_yard_two_operators
                  (Literal 1) (Literal 2) (Literal 3) "-" "+"
                  eq_refl eq_refl eq_refl eq_refl) eq_refl).
Defined.

(** X13: brackets group, and the two kinds of bracket are not told apart.
    For numbers [a], [b], [c], operators [v1], [v2] among [+ - / *] and any
    opening bracket [l] and closing bracket [r], of the same kind or not,
    the sequence l a v1 b r v2 c is reordered to a b v1 c v2 whatever the
    precedences; with [^] after the closing bracket [shunting_yard] raises
    [IndexError]. *)
Theorem shunting_yard_brackets (a b c : Token) (v1 v2 l r : string) :
  is_operand a = true -> is_operand b = true -> is_operand c = true ->
  left_operator v1 = true ->
  (left_operator v2 = true ->
   shunting_yard [LParen l; a; Operator v1; b; RParen r; Operator v2; c]
   = Ok [a; b; Operator v1; c; Operator v2])
  /\ shunting_yard [LParen l; a; Operator v1; b; RParen r; Operator "^"; c]
     = Raise IndexError.
Proof.
  intros Ha Hb Hc H1.
  apply left_operator_names in H1.
  split.
  - intros H2. apply left_operator_names in H2.
    destruct H1 as [-> | [-> | [-> | ->]]];
      destruct H2 as [-> | [-> | [-> | ->]]];
      destruct a; try discriminate Ha;
      destruct b; try discriminate Hb;
      destruct c; try discriminate Hc;
      reflexivity.
  - destruct H1 as [-> | [-> | [-> | ->]]];
      destruct a; try discriminate Ha;
      destruct b; try discriminate Hb;
      destruct c; try discriminate Hc;
      reflexivity.
Qed.

Lemma shunting_yard_brackets_example :
  shunting_yard
    [LParen "("; Literal 3; Operator "+"; Literal 4; RParen "]"; Operator "*";
     Literal 2]
  = Ok [Literal 3; Literal 4; Operator "+"; Literal 2; Operator "*"].
Proof.
  exact (proj1 (shunting_yard_brackets
                  (Literal 3) (Literal 4) (Literal 2) "+" "*" "(" "]"
                  eq_refl eq_refl eq_refl eq_refl) eq_refl).
Defined.

(** * More on the evaluator *)

Section MoreEvaluatorFacts.
Context {RT : PyRuntime}.

(** X2: the handlers registered under [-], [++], [**], [%], [!], [log2]
    and [log10] exist, but no text makes [tokenize] return an [Operator] or
    [Function] token of one of these names, so [eval] never applies them to
    what [tokenize] returns. *)
Theorem names_tokenize_never_returns (v : string) :
  In v ["-"; "++"; "**"; "%"; "!"; "log2"; "log10"] ->
  (exists operation : handler, operator v = Some operation)
  /\ (forall (text : string) (toks : list Token),
         tokenize text = Ok toks ->
         ~ In (Operator v) toks /\ ~ In (Function v) toks).
Proof.
  intros Hv. split.
  - cbn [In] in Hv.
    destruct Hv as [<- | [<- | [<- | [<- | [<- | [<- | [<- | []]]]]]]];
      eexists; reflexivity.
  - intros text toks Htok. apply tokenize_made in Htok.
    rewrite forallb_forall in Htok.
    split; intros Hin; apply Htok in Hin; cbn [In] in Hv;
      destruct Hv as [<- | [<- | [<- | [<- | [<- | [<- | [<- | []]]]]]]];
      discriminate Hin.
Qed.

(** ** Arithmetic on two floats *)

(** X14: the value under the top of the stack is the left operand. After
    the floats [a] and [b], on any stack, [-] leaves [a - b], [+] leaves
    [a + b] and [*] leaves [a * b] on the stack and in [ans]; [/] leaves
    [a / b], unless [b] is zero (of either sign), when it raises
    [ZeroDivisionError] with both operands popped. *)
Theorem float_arithmetic (a b : float) (w : world) :
  eval_tokens [Literal a; Literal b; Operator "-"] w
  = (Ok tt, {| ans := PyFloat (a - b); stack := PyFloat (a - b) :: stack w;
               gen := gen w |})
  /\ eval_tokens [Literal a; Literal b; Operator "+"] w
     = (Ok tt, {| ans := PyFloat (a + b); stack := PyFloat (a + b) :: stack w;
                  gen := gen w |})
  /\ eval_tokens [Literal a; Literal b; Operator "*"] w
     = (Ok tt, {| ans := PyFloat (a * b); stack := PyFloat (a * b) :: stack w;
                  gen := gen w |})
  /\ eval_tokens [Literal a; Literal b; Operator "/"] w
     = if PrimFloat.eqb b 0
       then (Raise ZeroDivisionError, w)
       else (Ok tt, {| ans := PyFloat (a / b); stack := PyFloat (a / b) :: stack w;
                       gen := gen w |}).
Proof.
  destruct w as [r s g]. repeat split.
  cbv. destruct (PrimFloat.eqb b 0); reflexivity.
Qed.

(** ** Too few values *)

(** X15: with too few values on the stack the handlers raise
    [IndexError]. The binary operators [+ - * / % ^] and [log] take the
    value under the top first, so they leave a stack of one value as it
    is; [max] and [min] take the top first, so they have removed the one
    value when they raise. *)
Theorem stack_underflow (x : pyval) (w : world) :
  (forall v, In v ["+"; "-"; "*"; "/"; "%"; "^"; "log"] ->
     eval_token (Operator v) (with_stack [] w) = (Raise IndexError, with_stack [] w)
     /\ eval_token (Operator v) (with_stack [x] w)
        = (Raise IndexError, with_stack [x] w))
  /\ (forall v, In v ["max"; "min"] ->
        eval_token (Function v) (with_stack [] w)
        = (Raise IndexError, with_stack [] w)
        /\ eval_token (Function v) (with_stack [x] w)
           = (Raise IndexError, with_stack [] w)).
Proof.
  split; intros v Hv; cbn [In] in Hv.
  - destruct Hv as [<- | [<- | [<- | [<- | [<- | [<- | [<- | []]]]]]]];
      split; reflexivity.
  - destruct Hv as [<- | [<- | []]]; split; reflexivity.
Qed.

(** ** The register and the value returned *)

Lemma apply_operation_ok (v : string) (w w1 : world) :
  apply_operation v w = (Ok tt, w1) ->
  exists s, stack w1 = ans w1 :: s.
Proof.
  unfold apply_operation.
  destruct (operator v) as [operation |]; [| discriminate].
  unfold bind. destruct (operation w) as [[r | e] w2]; [| discriminate].
  cbn. intros H; inversion H; subst. cbn. eauto.
Qed.

(** X16: when [eval] returns from a sequence that ends with an [Operator]
    or a [Function] token, the one value it returns is the value of
    [ans]. *)
Theorem eval_result_is_ans (pre : list Token) (last : Token) (w w1 : world)
  (s : list pyval) :
  is_Operator last || is_Function last = true ->
  eval (pre ++ [last]) w = (Ok s, w1) ->
  s = [ans w1] /\ stack w1 = [ans w1].
Proof.
  intros Hlast. rewrite eval_unfold, eval_tokens_app.
  destruct (eval_tokens pre w) as [[[] | e] w2]; [| discriminate].
  rewrite eval_tokens_cons.
  destruct (eval_token last w2) as [[[] | e] w3] eqn:E; [| discriminate].
  cbn [eval_tokens ret].
  assert (Hs : exists s3, stack w3 = ans w3 :: s3).
  { destruct last; try discriminate Hlast; cbn [eval_token] in E;
      eapply apply_operation_ok; eassumption. }
  destruct Hs as [s3 Hs]. rewrite Hs.
  destruct s3; cbn; [| discriminate].
  intros H; inversion H; subst. rewrite Hs. split; reflexivity.
Qed.

(** ** Tokens [eval] skips or refuses *)

Lemma eval_tokens_without_separators (expr : list Token) :
  forall w,
    eval_tokens (filter (fun t => negb (is_Separator t)) expr) w
    = eval_tokens expr w.
Proof.
  induction expr as [| t rest IH]; intros w; [reflexivity |].
  cbn [filter]. destruct (is_Separator t) eqn:Et; cbn [negb].
  - destruct t; try discriminate Et.
    rewrite (eval_tokens_cons (Separator value)). cbn [eval_token ret]. apply IH.
  - rewrite !eval_tokens_cons.
    destruct (eval_token t w) as [[[] | e] w1]; [apply IH | reflexivity].
Qed.

(** X17: [Separator] tokens change nothing: [eval] of a sequence and of the
    sequence without its separators do the same. *)
Theorem eval_ignores_separators (expr : list Token) (w : world) :
  eval (filter (fun t => negb (is_Separator t)) expr) w = eval expr w.
Proof.
  rewrite !eval_unfold, eval_tokens_without_separators. reflexivity.
Qed.

(** X18: [eval] never returns from a sequence that holds a bracket token:
    it raises, at the bracket if not before. *)
Theorem eval_refuses_brackets (expr : list Token) (t : Token) (w : world) :
  In t expr ->
  is_LParen t || is_RParen t = true ->
  exists e w1, eval expr w = (Raise e, w1).
Proof.
  intros Hin Ht. apply in_split in Hin as (l1 & l2 & ->).
  rewrite eval_unfold, eval_tokens_app.
  destruct (eval_tokens l1 w) as [[[] | e] w1]; [| eauto].
  rewrite eval_tokens_cons.
  destruct t; try discriminate Ht; cbn [eval_token raise]; eauto.
Qed.

(** X19: [eval] of two sequences one after the other: when the tokens of
    the first are processed without error, [eval] of the two in a row is
    [eval] of the second on the stack and register the first left. *)
Theorem eval_in_two_parts (first second : list Token) (w w1 : world) :
  eval_tokens first w = (Ok tt, w1) ->
  eval (first ++ second) w = eval second w1.
Proof.
  intros H. rewrite !eval_unfold, eval_tokens_app, H. reflexivity.
Qed.

End MoreEvaluatorFacts.

Lemma names_tokenize_never_returns_example :
  In "++" ["-"; "++"; "**"; "%"; "!"; "log2"; "log10"]
  /\ tokenize "1 2 3 ++"
     = Ok [Literal 1; Literal 2; Literal 3; Operator "+"; Operator "+"]
  /\ ~ In (Operator "++")
       [Literal 1; Literal 2; Literal 3; Operator "+"; Operator "+"].
Proof.
  split; [simpl; tauto |]. split; [reflexivity |].
  exact (proj1 (proj2 (@names_tokenize_never_returns example_runtime "++"
                         (or_intror (or_introl eq_refl)))
                  "1 2 3 ++" _ eq_refl)).
Defined.

Lemma stack_underflow_example :
  In "/" ["+"; "-"; "*"; "/"; "%"; "^"; "log"]
  /\ eval_token (Operator "/") (with_stack [PyFloat 1] fresh_calculator)
     = (Raise IndexError, with_stack [PyFloat 1] fresh_calculator).
Proof.
  split; [simpl; tauto |].
  exact (proj2 (proj1 (@stack_underflow example_runtime (PyFloat 1) fresh_calculator)
                  "/" (or_intror (or_intror (or_intror (or_introl eq_refl)))))).
Defined.

Lemma eval_result_is_ans_example :
  eval ([Literal 3; Literal 4] ++ [Operator "+"]) fresh_calculator
  = (Ok [PyFloat 7], {| ans := PyFloat 7; stack := [PyFloat 7]; gen := 0 |})
  /\ [PyFloat 7] = [ans {| ans := PyFloat 7; stack := [PyFloat 7]; gen := 0 |}].
Proof.
  split; [reflexivity |].
  exact (proj1 (@eval_result_is_ans example_runtime [Literal 3; Literal 4]
                  (Operator "+") fresh_calculator
                  {| ans := PyFloat 7; stack := [PyFloat 7]; gen := 0 |}
                  [PyFloat 7] eq_refl eq_refl)).
Defined.

Lemma eval_refuses_brackets_example :
  In (LParen "(") [LParen "("; Literal 1; RParen ")"]
  /\ exists e w1,
      eval [LParen "("; Literal 1; RParen ")"] fresh_calculator = (Raise e, w1).
Proof.
  split; [simpl; tauto |].
  exact (@eval_refuses_brackets example_runtime
           [LParen "("; Literal 1; RParen ")"] (LParen "(") fresh_calculator
           (or_introl eq_refl) eq_refl).
Defined.

Lemma eval_in_two_parts_example :
  eval_tokens [Literal 3; Literal 4] fresh_calculator
  = (Ok tt, with_stack [PyFloat 4; PyFloat 3] fresh_calculator)
  /\ eval ([Literal 3; Literal 4] ++ [Operator "*"]) fresh_calculator
     = eval [Operator "*"] (with_stack [PyFloat 4; PyFloat 3] fresh_calculator).
Proof.
  split; [reflexivity |].
  exact (@eval_in_two_parts example_runtime [Literal 3; Literal 4] [Operator "*"]
           fresh_calculator _ eq_refl).
Defined.

(** * Texts put together *)

Lemma prepend_flush_letters (pre : list Token) (t : tokenizer) :
  flush_letters (prepend pre t) = prepend pre (flush_letters t).
Proof.
  destruct t as [toks l n]. unfold flush_letters, prepend.
  cbn [tokens letter_buffer number_buffer].
  destruct l; [reflexivity |].
  destruct (String.eqb _ "e" || String.eqb _ "pi");
    cbn [tokens letter_buffer number_buffer]; now rewrite app_assoc.
Qed.

Lemma prepend_flush_numbers (pre : list Token) (t : tokenizer) :
  flush_numbers (prepend pre t)
  = (t1 <- flush_numbers t ;; Ok (prepend pre t1))%result.
Proof.
  destruct t as [toks l n]. unfold flush_numbers, prepend.
  cbn [tokens letter_buffer number_buffer].
  destruct n; [reflexivity |].
  destruct (py_float _); cbn [rbind]; [| reflexivity].
  destruct (list_eq_dec ascii_dec _ _);
    cbn [tokens letter_buffer number_buffer]; now rewrite !app_assoc.
Qed.

Lemma prepend_empty_buffers (pre : list Token) (t : tokenizer) :
  empty_buffers (prepend pre t)
  = (t1 <- empty_buffers t ;; Ok (prepend pre t1))%result.
Proof.
  unfold empty_buffers. now rewrite prepend_flush_letters, prepend_flush_numbers.
Qed.

Lemma prepend_emit (pre : list Token) (tok : Token) (t : tokenizer) :
  emit tok (prepend pre t) = prepend pre (emit tok t).
Proof. unfold emit, prepend. cbn. now rewrite app_assoc. Qed.

Lemma prepend_tokenize_char (pre : list Token) (c : ascii) (t : tokenizer) :
  tokenize_char c (prepend pre t)
  = (t1 <- tokenize_char c t ;; Ok (prepend pre t1))%result.
Proof.
  unfold tokenize_char. rewrite !prepend_empty_buffers.
  destruct (isdigit c || char_in c "-."); [reflexivity |].
  destruct (isalpha c).
  { destruct t as [toks l n]. cbn [prepend number_buffer tokens letter_buffer].
    destruct n; [reflexivity |].
    destruct (empty_buffers _); reflexivity. }
  destruct (in_OPS (one c)).
  { destruct (empty_buffers t); cbn [rbind]; [now rewrite prepend_emit | reflexivity]. }
  destruct (char_in c "([").
  { destruct (empty_buffers t); cbn [rbind]; [now rewrite prepend_emit | reflexivity]. }
  destruct (char_in c ")]").
  { destruct (empty_buffers t); cbn [rbind]; [now rewrite prepend_emit | reflexivity]. }
  destruct (Ascii.eqb c ",").
  { destruct (empty_buffers t); cbn [rbind]; [now rewrite prepend_emit | reflexivity]. }
  destruct (isspace c); [| reflexivity].
  destruct (empty_buffers t); reflexivity.
Qed.

Lemma prepend_tokenize_loop (pre : list Token) (cs : list ascii) :
  forall t,
    tokenize_loop cs (prepend pre t)
    = (t1 <- tokenize_loop cs t ;; Ok (prepend pre t1))%result.
Proof.
  induction cs as [| c cs IH]; intros t; cbn [tokenize_loop].
  - reflexivity.
  - rewrite prepend_tokenize_char.
    destruct (tokenize_char c t); cbn [rbind]; [apply IH | reflexivity].
Qed.

(** The parts of a successful [tokenize]. *)
Lemma tokenize_parts (text : string) (toks : list Token) :
  tokenize text = Ok toks ->
  exists t,
    tokenize_loop (list_ascii_of_string text) no_tokens = Ok t
    /\ empty_buffers t = Ok (prepend toks no_tokens).
Proof.
  rewrite tokenize_unfold.
  destruct (tokenize_loop (list_ascii_of_string text) no_tokens) as [t |] eqn:E;
    cbn [rbind]; [| discriminate].
  destruct (empty_buffers t) as [t1 |] eqn:E1; cbn [rbind]; [| discriminate].
  intros H; inversion H; subst. exists t. split; [reflexivity |].
  assert (Hok : tokenizer_ok no_tokens) by (split; reflexivity).
  pose proof (tokenize_loop_ok _ _ _ Hok E) as Hok1.
  destruct (empty_buffers_ok _ _ Hok1 E1) as (_ & Hn & Hl).
  destruct t1 as [toks1 l1 n1]. cbn in Hn, Hl. subst.
  unfold prepend, no_tokens. cbn. now rewrite app_nil_r.
Qed.

(** What the branches of [tokenize] do with a space and with a character
    that is a token by itself. *)
Lemma separating_classes (c : ascii) :
  implb (isspace c)
    (negb (number_char c) && negb (isalpha c)
     && match single c with None => true | Some _ => false end)
  && implb (match single c with Some _ => true | None => false end)
       (negb (isalpha c))
  = true.
Proof. destruct c as [[] [] [] [] [] [] [] []]; reflexivity. Qed.

Lemma tokenize_char_space (c : ascii) (t : tokenizer) :
  isspace c = true -> tokenize_char c t = empty_buffers t.
Proof.
  intros Hs. pose proof (separating_classes c) as Hc.
  apply andb_true_iff in Hc as [Hc _].
  apply (fun h => implb_elim _ _ h Hs) in Hc.
  apply andb_true_iff in Hc as [Hc H3]. apply andb_true_iff in Hc as [H1 H2].
  apply negb_true_iff in H1, H2.
  unfold tokenize_char. change (isdigit c || char_in c "-.") with (number_char c).
  rewrite H1, H2, Hs. unfold single in H3.
  destruct (in_OPS (one c)); [discriminate |].
  destruct (char_in c "(["); [discriminate |].
  destruct (char_in c ")]"); [discriminate |].
  destruct (Ascii.eqb c ","); [discriminate | reflexivity].
Qed.

Lemma tokenize_char_single (c : ascii) (tok : Token) (t : tokenizer) :
  number_char c = false ->
  single c = Some tok ->
  tokenize_char c t = (t1 <- empty_buffers t ;; Ok (emit tok t1))%result.
Proof.
  intros Hn Hs. pose proof (separating_classes c) as Hc.
  apply andb_true_iff in Hc as [_ Hc]. rewrite Hs in Hc. cbn [implb] in Hc.
  apply negb_true_iff in Hc.
  unfold tokenize_char. change (isdigit c || char_in c "-.") with (number_char c).
  rewrite Hn, Hc. unfold single in Hs.
  destruct (in_OPS (one c)); [inversion Hs; reflexivity |].
  destruct (char_in c "(["); [inversion Hs; reflexivity |].
  destruct (char_in c ")]"); [inversion Hs; reflexivity |].
  destruct (Ascii.eqb c ","); [inversion Hs; reflexivity | discriminate].
Qed.

(** [b] after [a] and a character that leaves the buffers empty and the
    tokens [between] after those of [a]. *)
Lemma tokenize_joined (a b : string) (c : ascii) (between : list Token)
  (ta tb : list Token) :
  (forall t, empty_buffers t = Ok (prepend ta no_tokens) ->
                tokenize_char c t = Ok (prepend (ta ++ between) no_tokens)) ->
  tokenize a = Ok ta ->
  tokenize b = Ok tb ->
  tokenize (a ++ String c b) = Ok (ta ++ between ++ tb).
Proof.
  intros Hc Ha Hb.
  destruct (tokenize_parts a ta Ha) as (t1 & Hl1 & He1).
  destruct (tokenize_parts b tb Hb) as (t2 & Hl2 & He2).
  rewrite tokenize_unfold, list_ascii_of_string_app.
  cbn [list_ascii_of_string]. rewrite tokenize_loop_app, Hl1.
  cbn [rbind tokenize_loop]. rewrite (Hc t1 He1). cbn [rbind].
  rewrite prepend_tokenize_loop, Hl2. cbn [rbind].
  rewrite prepend_empty_buffers, He2. cbn [rbind prepend tokens no_tokens].
  now rewrite !app_nil_r, app_assoc.
Qed.

Lemma tokenize_with_space (a b : string) (c : ascii) (ta tb : list Token) :
  isspace c = true ->
  tokenize a = Ok ta ->
  tokenize b = Ok tb ->
  tokenize (a ++ String c b) = Ok (ta ++ tb).
Proof.
  intros Hs Ha Hb. change (ta ++ tb) with (ta ++ [] ++ tb).
  apply tokenize_joined; try assumption.
  intros t He. rewrite (tokenize_char_space c t Hs), He, app_nil_r. reflexivity.
Qed.

Lemma tokenize_with_single (a b : string) (c : ascii) (tok : Token)
  (ta tb : list Token) :
  number_char c = false ->
  single c = Some tok ->
  tokenize a = Ok ta ->
  tokenize b = Ok tb ->
  tokenize (a ++ String c b) = Ok (ta ++ [tok] ++ tb).
Proof.
  intros Hn Hs Ha Hb. apply tokenize_joined; try assumption.
  intros t He. rewrite (tokenize_char_single c tok t Hn Hs), He. cbn [rbind].
  unfold emit, prepend, no_tokens. cbn. now rewrite !app_nil_r.
Qed.

(** X20: texts put together. When [tokenize] returns the tokens [ta] for
    [a] and [tb] for [b], it returns [ta] followed by [tb] for the two
    texts with a space character between them, and [ta], the token of [c],
    then [tb] when what is between them is a character [c] that is a token
    by itself: one of [+ / * ^], a bracket or a comma. *)
Theorem tokenize_concatenation (a b : string) (c : ascii) (ta tb : list Token) :
  tokenize a = Ok ta ->
  tokenize b = Ok tb ->
  (isspace c = true -> tokenize (a ++ String c b) = Ok (ta ++ tb))
  /\ (forall tok, number_char c = false -> single c = Some tok ->
        tokenize (a ++ String c b) = Ok (ta ++ [tok] ++ tb)).
Proof.
  intros Ha Hb. split.
  - intros Hs. now apply tokenize_with_space.
  - intros tok Hn Hs. now apply tokenize_with_single.
Qed.

Lemma tokenize_concatenation_example :
  tokenize "sin" = Ok [Function "sin"]
  /\ tokenize "2.5" = Ok [Literal 2.5]
  /\ tokenize ("sin" ++ String "(" "2.5") = Ok ([Function "sin"] ++ [LParen "("] ++ [Literal 2.5]).
Proof.
  split; [reflexivity |]. split; [reflexivity |].
  exact (proj2 (tokenize_concatenation "sin" "2.5" "(" _ _ eq_refl eq_refl)
           (LParen "(") eq_refl eq_refl).
Defined.

(** * The two programs *)

Section ProgramFacts.
Context {RT : PyRuntime}.







(** X23: [main] of [expression.py] on two numbers and one operator. When
    [float] accepts the number texts [ta] and [tb] with the values [a] and
    [b], the line [ta+tb] prints the postfix a b + and the result
    [a + b], and likewise for [*]; [ta/tb] gives [a / b], or
    [ZeroDivisionError] when [b] is zero; [ta^tb] raises [IndexError]
    before anything is printed. *)
Theorem expression_main_two_numbers (ta tb : string) (a b : float) (g : rng) :
  forallb number_char (list_ascii_of_string ta) = true ->
  forallb number_char (list_ascii_of_string tb) = true ->
  py_float ta = Ok a ->
  py_float tb = Ok b ->
  expression_main (ta ++ String "+" tb) g
  = (Some [Literal a; Literal b; Operator "+"], Ok [PyFloat (a + b)])
  /\ expression_main (ta ++ String "*" tb) g
     = (Some [Literal a; Literal b; Operator "*"], Ok [PyFloat (a * b)])
  /\ expression_main (ta ++ String "/" tb) g
     = (Some [Literal a; Literal b; Operator "/"],
        if PrimFloat.eqb b 0 then Raise ZeroDivisionError
        else Ok [PyFloat (a / b)])
  /\ expression_main (ta ++ String "^" tb) g = (None, Raise IndexError).
Proof.
  intros Hta Htb Ha Hb.
  pose proof (tokenize_number_text ta a Hta Ha) as Hna.
  pose proof (tokenize_number_text tb b Htb Hb) as Hnb.
  unfold expression_main.
  rewrite (tokenize_with_single ta tb "+" (Operator "+") _ _ eq_refl eq_refl Hna Hnb).
  rewrite (tokenize_with_single ta tb "*" (Operator "*") _ _ eq_refl eq_refl Hna Hnb).
  rewrite (tokenize_with_single ta tb "/" (Operator "/") _ _ eq_refl eq_refl Hna Hnb).
  rewrite (tokenize_with_single ta tb "^" (Operator "^") _ _ eq_refl eq_refl Hna Hnb).
  repeat split.
  cbv. destruct (PrimFloat.eqb b 0); reflexivity.
Qed.

End ProgramFacts.



Lemma expression_main_two_numbers_example :
  py_float "1.5" = Ok 1.5%float
  /\ py_float "-2" = Ok (-2)%float
  /\ expression_main ("1.5" ++ String "*" "-2") 0
     = (Some [Literal 1.5; Literal (-2); Operator "*"], Ok [PyFloat (1.5 * -2)]).
Proof.
  split; [reflexivity |]. split; [reflexivity |].
  exact (proj1 (proj2 (@expression_main_two_numbers example_runtime
                         "1.5" "-2" 1.5%float (-2)%float 0
                         eq_refl eq_refl eq_refl eq_refl))).
Defined.

(** With a complex number on the stack the printing of the stack raises
    [TypeError], whatever the turn did: here the line [1] leaves two values
    and [eval] raises the [Warning] the loop ignores. *)
Lemma interactive_turn_unprintable_stack :
  interactive_turn "1" (with_stack [PyComplex 0 1] fresh_calculator)
  = (Propagate TypeError, with_stack [PyFloat 1; PyComplex 0 1] fresh_calculator)
  /\ interactive_loop ["1"; "pop"] (with_stack [PyComplex 0 1] fresh_calculator)
     = ([Propagate TypeError],
        with_stack [PyFloat 1; PyComplex 0 1] fresh_calculator).
Proof. split; reflexivity. Qed.
